(** * Vocard: the document cache of [voicelink/mongodb.py]

    A shallow embedding of [MongoDBHandler]: the in-memory caches
    [_settings_buffer] and [_users_buffer], the shared [_last_access]
    table, the update operators that [_update_db] applies to a cached
    document, the maintenance sweep [cleanup_cache], and the calls the
    handler issues to its document backend.

    Python objects live in an object store ([objects]); a cache maps a
    primary key to the address of the document object it holds, so that
    a live reference and a [copy.deepcopy] are different things, as they
    are in the source.  Scalars are [None], booleans, integers and
    strings; clock readings are integers.

    Two callers of the handler, [assign_playlist_id] and
    [check_playlist_perms] of [cogs/playlist.py], are embedded as well. *)

From stdpp Require Import gmap strings list fin_maps.
From Stdlib Require Import ZArith Ascii String DecimalString.

#[local] Set Warnings "-register-all".
Local Open Scope string_scope.
Local Open Scope list_scope.
Local Open Scope Z_scope.

(** ** Python values *)

Inductive value : Type :=
| VNone
| VBool (b : bool)
| VInt (z : Z)
| VStr (s : string)
| VList (xs : list value)
| VDict (kvs : list (string * value)).

Inductive exn : Type :=
| ValueError
| TypeError
| AttributeError
| KeyError
| DuplicateKeyError
| PyMongoError
| GenericException
| SystemError
| ConnectionError.

(** A [dict] keeps insertion order: an association list with one pair
    per key. *)
Module PyDict.
Section Ops.
Context {K V : Type} (eqb : K -> K -> bool).

Fixpoint get (k : K) (d : list (K * V)) : option V :=
  match d with
  | [] => None
  | (k', v) :: d' => if eqb k k' then Some v else get k d'
  end.

Definition mem (k : K) (d : list (K * V)) : bool :=
  match get k d with Some _ => true | None => false end.

(** [d[k] = v]: overwrite in place, or append a new pair. *)
Fixpoint set (k : K) (v : V) (d : list (K * V)) : list (K * V) :=
  match d with
  | [] => [(k, v)]
  | (k', v') :: d' =>
      if eqb k k' then (k', v) :: d' else (k', v') :: set k v d'
  end.

(** [d.pop(k, None)] / [del d[k]] once the key is known to be there. *)
Fixpoint remove (k : K) (d : list (K * V)) : list (K * V) :=
  match d with
  | [] => []
  | (k', v') :: d' => if eqb k k' then d' else (k', v') :: remove k d'
  end.

(** [{**a, **b}]: the pairs of [b] are written over [a] in order. *)
Definition merge (a b : list (K * V)) : list (K * V) :=
  fold_left (fun acc kv => set (fst kv) (snd kv) acc) b a.
End Ops.
End PyDict.

Definition dict_get := PyDict.get (V := value) String.eqb.
Definition dict_mem := PyDict.mem (V := value) String.eqb.
Definition dict_set := PyDict.set (V := value) String.eqb.
Definition dict_remove := PyDict.remove (V := value) String.eqb.
Definition dict_merge := PyDict.merge (V := value) String.eqb.

(** Python's [==] on the values above: [True == 1], lists compare
    element by element, dicts compare as maps. *)
Fixpoint py_eqb (a b : value) {struct a} : bool :=
  match a, b with
  | VNone, VNone => true
  | VBool x, VBool y => Bool.eqb x y
  | VBool x, VInt y => Z.eqb (Z.b2z x) y
  | VInt x, VBool y => Z.eqb x (Z.b2z y)
  | VInt x, VInt y => Z.eqb x y
  | VStr s, VStr t => String.eqb s t
  | VList xs, VList ys =>
      (fix go (xs ys : list value) : bool :=
         match xs, ys with
         | [], [] => true
         | x :: xs', y :: ys' => py_eqb x y && go xs' ys'
         | _, _ => false
         end) xs ys
  | VDict m, VDict n =>
      Nat.eqb (List.length m) (List.length n) &&
      (fix go (m : list (string * value)) : bool :=
         match m with
         | [] => true
         | (k, v) :: m' =>
             match dict_get k n with
             | Some w => py_eqb v w
             | None => false
             end && go m'
         end) m
  | _, _ => false
  end.

(** [isinstance(v, (int, float))]: [bool] is a subclass of [int]. *)
Definition is_numeric (v : value) : bool :=
  match v with VInt _ | VBool _ => true | _ => false end.

Definition as_int (v : value) : option Z :=
  match v with
  | VInt z => Some z
  | VBool b => Some (Z.b2z b)
  | _ => None
  end.

(** [a + b] for a numeric [a]; anything else on the right is a
    [TypeError]. *)
Definition py_add (a b : value) : option value :=
  match as_int a, as_int b with
  | Some x, Some y => Some (VInt (x + y))
  | _, _ => None
  end.

(** [s in t] on strings. *)
Definition substring_in (s t : string) : bool :=
  match String.index 0 s t with Some _ => true | None => false end.

Fixpoint chars (s : string) : list value :=
  match s with
  | EmptyString => []
  | String c s' => VStr (String c EmptyString) :: chars s'
  end.

(** What [list.extend(v)] iterates over. *)
Definition py_iter (v : value) : option (list value) :=
  match v with
  | VList xs => Some xs
  | VStr s => Some (chars s)
  | VDict m => Some (map (fun kv => VStr (fst kv)) m)
  | _ => None
  end.

(** [item in values]; [None] is a [TypeError]. *)
Definition py_contains (values item : value) : option bool :=
  match values with
  | VList ys => Some (existsb (py_eqb item) ys)
  | VStr t => match item with VStr s => Some (substring_in s t) | _ => None end
  | VDict m =>
      match item with
      | VStr s => Some (dict_mem s m)
      | VList _ | VDict _ => None
      | _ => Some false
      end
  | _ => None
  end.

(** [arr[n:]]: a non-negative [n] drops the first [n] items, a negative
    [n] keeps the last [|n|]. *)
Definition slice_from (n : Z) (arr : list value) : list value :=
  if 0 <=? n then drop (Z.to_nat n) arr
  else drop (Z.to_nat (Z.of_nat (List.length arr) + n)) arr.

Definition py_slice_from (idx : value) (arr : list value) : option (list value) :=
  match idx with
  | VNone => Some arr
  | VInt n => Some (slice_from n arr)
  | VBool b => Some (slice_from (Z.b2z b) arr)
  | _ => None
  end.

(** [key.split(".")] *)
Fixpoint split_on (sep : ascii) (s : string) : string * list string :=
  match s with
  | EmptyString => (EmptyString, [])
  | String c s' =>
      let '(hd, tl) := split_on sep s' in
      if Ascii.eqb c sep then (EmptyString, hd :: tl) else (String c hd, tl)
  end.

Definition split (sep : ascii) (s : string) : list string :=
  let '(hd, tl) := split_on sep s in hd :: tl.

(** ** The update operators that [_update_db] applies to a cached object

    An edit works in place: what it returns is the object as the edit
    left it, together with the exception when it raised.  A failed
    edit can leave its traces (a path that [setdefault] created, a list
    already extended). *)

Definition valid_operations : list string :=
  ["$set"; "$unset"; "$inc"; "$push"; "$pull"].

Definition edited : Type := value * option exn.

Definition action : Type := list (string * value).
Definition update_data : Type := list (string * action).

(** [nested[field] = value] *)
Definition op_set (field : string) (v nested : value) : edited :=
  match nested with
  | VDict m => (VDict (dict_set field v m), None)
  | _ => (nested, Some TypeError)
  end.

(** [nested.pop(field, None)] *)
Definition op_unset (field : string) (nested : value) : edited :=
  match nested with
  | VDict m => (VDict (dict_remove field m), None)
  | VList _ => (nested, Some TypeError)
  | _ => (nested, Some AttributeError)
  end.

Definition op_inc (field : string) (v nested : value) : edited :=
  match nested with
  | VDict m =>
      let cur := default (VInt 0) (dict_get field m) in
      if is_numeric cur then
        match py_add cur v with
        | Some s => (VDict (dict_set field s m), None)
        | None => (nested, Some TypeError)
        end
      else (nested, Some ValueError)
  | _ => (nested, Some AttributeError)
  end.

Definition op_push (field : string) (v nested : value) : edited :=
  match nested with
  | VDict m =>
      let m1 := if dict_mem field m then m else dict_set field (VList []) m in
      match dict_get field m1 with
      | Some (VList arr) =>
          let append := (VDict (dict_set field (VList (arr ++ [v])) m1), None) in
          match v with
          | VDict spec =>
              match dict_get "$each" spec with
              | Some each =>
                  match py_iter each with
                  | None => (VDict m1, Some TypeError)
                  | Some items =>
                      let arr1 := arr ++ items in
                      match dict_get "$slice" spec with
                      | None => (VDict (dict_set field (VList arr1) m1), None)
                      | Some idx =>
                          match py_slice_from idx arr1 with
                          | Some arr2 =>
                              (VDict (dict_set field (VList arr2) m1), None)
                          | None =>
                              (VDict (dict_set field (VList arr1) m1),
                               Some TypeError)
                          end
                      end
                  end
              | None => append
              end
          | _ => append
          end
      | _ => (VDict m1, Some ValueError)
      end
  | _ => (nested, Some AttributeError)
  end.

(** [[item for item in items if item not in values]] *)
Fixpoint pull_filter (values : value) (items : list value)
  : option (list value) :=
  match items with
  | [] => Some []
  | x :: rest =>
      match py_contains values x with
      | None => None
      | Some b =>
          match pull_filter values rest with
          | None => None
          | Some r => Some (if b then r else x :: r)
          end
      end
  end.

Definition op_pull (field : string) (v nested : value) : edited :=
  match nested with
  | VDict m =>
      match dict_get field m with
      | None => (nested, None)
      | Some (VList arr) =>
          let values :=
            match v with
            | VDict spec => default (VList []) (dict_get "$in" spec)
            | _ => VList [v]
            end in
          match pull_filter values arr with
          | Some arr' => (VDict (dict_set field (VList arr') m), None)
          | None => (nested, Some TypeError)
          end
      | Some _ => (nested, Some ValueError)
      end
  | VList xs =>
      (nested, if existsb (py_eqb (VStr field)) xs then Some TypeError else None)
  | VStr t =>
      (nested, if substring_in field t then Some TypeError else None)
  | _ => (nested, Some TypeError)
  end.

(** The [if mode == ...] chain with its [except Exception] wrapper:
    whatever an operator raises comes out as a [ValueError]. *)
Definition apply_field (mode field : string) (v nested : value) : edited :=
  let '(nested', e) :=
    if String.eqb mode "$set" then op_set field v nested
    else if String.eqb mode "$unset" then op_unset field nested
    else if String.eqb mode "$inc" then op_inc field v nested
    else if String.eqb mode "$push" then op_push field v nested
    else if String.eqb mode "$pull" then op_pull field v nested
    else (nested, None) in
  (nested', match e with Some _ => Some ValueError | None => None end).

(** The walk along [cursors[:-1]]: every step checks that it stands on
    a dict and descends with [setdefault(c, {})]. *)
Fixpoint walk (cursors : list string) (k : value -> edited) (nested : value)
  : edited :=
  match cursors with
  | [] => k nested
  | c :: rest =>
      match nested with
      | VDict m =>
          let child := default (VDict []) (dict_get c m) in
          let '(child', e) := walk rest k child in
          (VDict (dict_set c child' m), e)
      | _ => (nested, Some ValueError)
      end
  end.

Definition apply_edit (mode key : string) (v cache : value) : edited :=
  let cursors := split "." key in
  walk (removelast cursors) (apply_field mode (List.last cursors "") v) cache.

Fixpoint apply_action (mode : string) (act : action) (cache : value) : edited :=
  match act with
  | [] => (cache, None)
  | (key, v) :: rest =>
      match apply_edit mode key v cache with
      | (cache', None) => apply_action mode rest cache'
      | failed => failed
      end
  end.

Fixpoint apply_data (data : update_data) (cache : value) : edited :=
  match data with
  | [] => (cache, None)
  | (mode, act) :: rest =>
      match apply_action mode act cache with
      | (cache', None) => apply_data rest cache'
      | failed => failed
      end
  end.

Definition all_valid (data : update_data) : bool :=
  forallb (fun op => existsb (String.eqb (fst op)) valid_operations) data.

(** [bool(v)] *)
Definition truthy (v : value) : bool :=
  match v with
  | VNone => false
  | VBool b => b
  | VInt z => negb (z =? 0)
  | VStr s => negb (String.eqb s "")
  | VList xs => match xs with [] => false | _ => true end
  | VDict m => match m with [] => false | _ => true end
  end.

(** ** The document backend

    The handler talks to two collections through [find_one],
    [insert_one], [update_one], [delete_one] and [find].  A collection
    is the list of its documents.  How the server matches a general
    query and how it applies an update document are the server's own
    business ([server_match], [server_update]); a filter that is exactly
    [{"_id": v}] selects by equality on the primary key.  [faults] says
    which calls (counted from the first) fail at the transport, and
    [calls] records every call issued. *)

Inductive collection : Type := Settings | Users.

Inductive call : Type :=
| FindOne (c : collection) (filter_ : list (string * value))
| InsertOne (c : collection) (doc : value)
| UpdateOne (c : collection) (filter_ : list (string * value)) (data : update_data)
| DeleteOne (c : collection) (filter_ : list (string * value))
| Find (c : collection) (criteria : value) (skip : Z) (limit : option Z).

Record backend : Type := Backend {
  settings_docs : list value;
  users_docs : list value;
  server_match : value -> value -> bool;
  server_update : update_data -> value -> option value;
  calls : list call;
  faults : list bool;
}.

Definition docs_of (c : collection) (b : backend) : list value :=
  match c with Settings => settings_docs b | Users => users_docs b end.

Definition with_docs (c : collection) (ds : list value) (b : backend) : backend :=
  match c with
  | Settings =>
      Backend ds (users_docs b) (server_match b) (server_update b)
        (calls b) (faults b)
  | Users =>
      Backend (settings_docs b) ds (server_match b) (server_update b)
        (calls b) (faults b)
  end.

Definition with_call (c : call) (b : backend) : backend :=
  Backend (settings_docs b) (users_docs b) (server_match b) (server_update b)
    (calls b ++ [c]) (faults b).

Definition doc_id (d : value) : option value :=
  match d with VDict m => dict_get "_id" m | _ => None end.

Definition has_id (v d : value) : bool :=
  match doc_id d with Some w => py_eqb v w | None => false end.

Definition selects (b : backend) (filter_ : list (string * value)) (d : value)
  : bool :=
  match filter_ with
  | [(k, v)] =>
      if String.eqb k "_id" then has_id v d else server_match b (VDict filter_) d
  | _ => server_match b (VDict filter_) d
  end.

(** The first selected document is rewritten; the count says whether
    it changed.  [None]: the server refused the update document. *)
Fixpoint update_first (sel : value -> bool) (upd : value -> option value)
    (docs : list value) : option (list value * Z) :=
  match docs with
  | [] => Some ([], 0)
  | d :: rest =>
      if sel d then
        match upd d with
        | Some d' => Some (d' :: rest, if py_eqb d d' then 0 else 1)
        | None => None
        end
      else
        match update_first sel upd rest with
        | Some (rest', n) => Some (d :: rest', n)
        | None => None
        end
  end.

Fixpoint delete_first (sel : value -> bool) (docs : list value)
  : list value * Z :=
  match docs with
  | [] => ([], 0)
  | d :: rest =>
      if sel d then (rest, 1)
      else let '(rest', n) := delete_first sel rest in (d :: rest', n)
  end.

(** A query under construction: [find(criteria).skip(n).limit(m)]. *)
Record cursor : Type := Cursor {
  cur_coll : collection;
  cur_criteria : value;
  cur_skip : Z;
  cur_limit : option Z;
}.

Definition find (c : collection) (criteria : value) : cursor :=
  Cursor c criteria 0 None.

Definition cursor_limit (n : Z) (cur : cursor) : cursor :=
  Cursor (cur_coll cur) (cur_criteria cur) (cur_skip cur) (Some n).

(** What the server sends back for a cursor: the matching documents in
    order, after the skip, cut at the limit when there is one (the
    server reads a limit of 0 as none and a negative one by its size). *)
Definition run_cursor (b : backend) (cur : cursor) : list value :=
  let matching := filter (fun d => server_match b (cur_criteria cur) d = true)
                    (docs_of (cur_coll cur) b) in
  let skipped := drop (Z.to_nat (cur_skip cur)) matching in
  match cur_limit cur with
  | None => skipped
  | Some n => if n =? 0 then skipped else take (Z.abs_nat n) skipped
  end.

(** ** The handler state *)

Definition loc : Type := positive.

(** What a caller holds: a whole object, or the object stored in a
    field of one ([user[d_type]]). *)
Inductive pyref : Type :=
| Whole (l : loc)
| Field (l : loc) (k : string).

Record handler : Type := Handler {
  _CACHE_TTL : Z;
  _MAX_CACHE_SIZE : Z;
  _settings_buffer : gmap Z loc;
  _users_buffer : gmap Z loc;
  _last_access : list (Z * Z);
  objects : gmap loc value;
  next_object : loc;
  _db : backend;
}.

Definition _settings_db : collection := Settings.
Definition _users_db : collection := Users.

Definition with_settings_buffer (m : gmap Z loc) (h : handler) : handler :=
  Handler (_CACHE_TTL h) (_MAX_CACHE_SIZE h) m (_users_buffer h)
    (_last_access h) (objects h) (next_object h) (_db h).

Definition with_users_buffer (m : gmap Z loc) (h : handler) : handler :=
  Handler (_CACHE_TTL h) (_MAX_CACHE_SIZE h) (_settings_buffer h) m
    (_last_access h) (objects h) (next_object h) (_db h).

Definition with_last_access (la : list (Z * Z)) (h : handler) : handler :=
  Handler (_CACHE_TTL h) (_MAX_CACHE_SIZE h) (_settings_buffer h)
    (_users_buffer h) la (objects h) (next_object h) (_db h).

Definition with_objects (o : gmap loc value) (n : loc) (h : handler) : handler :=
  Handler (_CACHE_TTL h) (_MAX_CACHE_SIZE h) (_settings_buffer h)
    (_users_buffer h) (_last_access h) o n (_db h).

Definition with_db (b : backend) (h : handler) : handler :=
  Handler (_CACHE_TTL h) (_MAX_CACHE_SIZE h) (_settings_buffer h)
    (_users_buffer h) (_last_access h) (objects h) (next_object h) b.

Definition buffer_of (c : collection) (h : handler) : gmap Z loc :=
  match c with Settings => _settings_buffer h | Users => _users_buffer h end.

Definition with_buffer (c : collection) (m : gmap Z loc) (h : handler) : handler :=
  match c with
  | Settings => with_settings_buffer m h
  | Users => with_users_buffer m h
  end.

Definition la_get := PyDict.get (V := Z) Z.eqb.
Definition la_set := PyDict.set (V := Z) Z.eqb.
Definition la_remove := PyDict.remove (V := Z) Z.eqb.

(** The default user template. *)
Definition _user_base : list (string * value) :=
  [ ("_id", VInt 0);
    ("playlist",
      VDict [ ("200",
        VDict [ ("tracks", VList []);
                ("perms", VDict [ ("read", VList []); ("write", VList []);
                                  ("remove", VList []) ]);
                ("name", VStr "Favourite");
                ("type", VStr "playlist") ]) ]);
    ("history", VList []);
    ("inbox", VList []) ].

(** The class as it is loaded, in front of a given backend. *)
Definition initial (b : backend) : handler :=
  Handler 300 10000 ∅ ∅ [] ∅ 1%positive b.

(** ** Computations: state and exceptions *)

Inductive result (A : Type) : Type :=
| Ok (a : A)
| Raise (e : exn).
Arguments Ok {A} a.
Arguments Raise {A} e.

Definition M (A : Type) : Type := handler -> result A * handler.

Definition ret {A} (a : A) : M A := fun h => (Ok a, h).
Definition raise {A} (e : exn) : M A := fun h => (Raise e, h).

Definition bind {A B} (m : M A) (k : A -> M B) : M B :=
  fun h =>
    match m h with
    | (Ok a, h') => k a h'
    | (Raise e, h') => (Raise e, h')
    end.

(** [try: m  except Exception as e: k e] *)
Definition catch {A} (m : M A) (k : exn -> M A) : M A :=
  fun h =>
    match m h with
    | (Ok a, h') => (Ok a, h')
    | (Raise e, h') => k e h'
    end.

Definition gets {A} (f : handler -> A) : M A := fun h => (Ok (f h), h).
Definition modify (f : handler -> handler) : M unit := fun h => (Ok tt, f h).

Notation "x <- c1 ;; c2" := (bind c1 (fun x => c2))
  (at level 20, c1 at level 99, c2 at level 200, only parsing).
Notation "c1 ;; c2" := (bind c1 (fun _ => c2))
  (at level 100, c2 at level 200, only parsing, right associativity).

(** [except Exception as e: raise E(...)] *)
Definition reraise_as {A} (e : exn) (m : M A) : M A :=
  catch m (fun _ => raise e).

(** ** Objects *)

(** A new object; nothing else refers to it yet. *)
Definition alloc (v : value) : M loc :=
  fun h =>
    let l := next_object h in
    (Ok l, with_objects (<[l := v]> (objects h)) (Pos.succ l) h).

Definition load (l : loc) : M value :=
  fun h =>
    match objects h !! l with
    | Some v => (Ok v, h)
    | None => (Raise SystemError, h)
    end.

Definition store (l : loc) (v : value) : M unit :=
  modify (fun h => with_objects (<[l := v]> (objects h)) (next_object h) h).

Definition deref (r : pyref) : M value :=
  match r with
  | Whole l => load l
  | Field l k =>
      o <- load l ;;
      match o with
      | VDict m =>
          match dict_get k m with
          | Some v => ret v
          | None => raise SystemError
          end
      | _ => raise SystemError
      end
  end.

(** Leave an object in the state [v] (the outcome of editing it in
    place). *)
Definition assign (r : pyref) (v : value) : M unit :=
  match r with
  | Whole l => store l v
  | Field l k =>
      o <- load l ;;
      match o with
      | VDict m => store l (VDict (dict_set k v m))
      | _ => raise SystemError
      end
  end.

(** [copy.deepcopy(r)] *)
Definition deepcopy (r : pyref) : M pyref :=
  v <- deref r ;;
  l <- alloc v ;;
  ret (Whole l).

(** ** Backend calls *)

Definition backend_call (c : call) : M unit :=
  fun h =>
    let n := List.length (calls (_db h)) in
    let h' := with_db (with_call c (_db h)) h in
    if nth n (faults (_db h)) false then (Raise PyMongoError, h')
    else (Ok tt, h').

Definition find_one (c : collection) (filter_ : list (string * value))
  : M (option value) :=
  backend_call (FindOne c filter_) ;;
  gets (fun h => List.find (selects (_db h) filter_) (docs_of c (_db h))).

Definition insert_one (c : collection) (doc : value) : M unit :=
  backend_call (InsertOne c doc) ;;
  match doc_id doc with
  | None => raise PyMongoError
  | Some v =>
      ds <- gets (fun h => docs_of c (_db h)) ;;
      if existsb (has_id v) ds then raise DuplicateKeyError
      else modify (fun h => with_db (with_docs c (ds ++ [doc]) (_db h)) h)
  end.

(** Returns [modified_count]. *)
Definition update_one (c : collection) (filter_ : list (string * value))
    (data : update_data) : M Z :=
  backend_call (UpdateOne c filter_ data) ;;
  b <- gets _db ;;
  match update_first (selects b filter_) (server_update b data) (docs_of c b) with
  | Some (ds, n) => modify (with_db (with_docs c ds b)) ;; ret n
  | None => raise PyMongoError
  end.

(** Returns [deleted_count]. *)
Definition delete_one (c : collection) (filter_ : list (string * value)) : M Z :=
  backend_call (DeleteOne c filter_) ;;
  b <- gets _db ;;
  let '(ds, n) := delete_first (selects b filter_) (docs_of c b) in
  modify (with_db (with_docs c ds b)) ;; ret n.

(** [cursor.skip(n)] refuses a negative [n]. *)
Definition cursor_skip (n : Z) (cur : cursor) : M cursor :=
  if n <? 0 then raise ValueError
  else ret (Cursor (cur_coll cur) (cur_criteria cur) n (cur_limit cur)).

(** [await cursor.to_list(length=None)] *)
Definition to_list (cur : cursor) : M (list value) :=
  backend_call (Find (cur_coll cur) (cur_criteria cur) (cur_skip cur)
                  (cur_limit cur)) ;;
  gets (fun h => run_cursor (_db h) cur).

(** ** The handler *)

(** The key a cache files a document under. *)
Definition as_key (v : value) : M Z :=
  match as_int v with
  | Some k => ret k
  | None => raise TypeError
  end.

Definition cached (c : collection) (k : Z) : M loc :=
  fun h =>
    match buffer_of c h !! k with
    | Some l => (Ok l, h)
    | None => (Raise KeyError, h)
    end.

Definition in_buffer (c : collection) (k : Z) (h : handler) : bool :=
  bool_decide (is_Some (buffer_of c h !! k)).

Definition get_settings (guild_id : Z) (force_refresh : bool) (now : Z)
  : M pyref :=
  reraise_as ConnectionError (
    hit <- gets (in_buffer Settings guild_id) ;;
    (if force_refresh || negb hit then
       found <- find_one _settings_db [("_id", VInt guild_id)] ;;
       settings <-
         match found with
         | Some doc =>
             if truthy doc then ret doc
             else
               let fresh := VDict [("_id", VInt guild_id)] in
               reraise_as ConnectionError (insert_one _settings_db fresh) ;;
               ret fresh
         | None =>
             let fresh := VDict [("_id", VInt guild_id)] in
             reraise_as ConnectionError (insert_one _settings_db fresh) ;;
             ret fresh
         end ;;
       l <- alloc settings ;;
       modify (fun h =>
         with_settings_buffer (<[guild_id := l]> (_settings_buffer h)) h) ;;
       modify (fun h => with_last_access (la_set guild_id now (_last_access h)) h)
     else ret tt) ;;
    l <- cached Settings guild_id ;;
    deepcopy (Whole l)).

Definition get_user (user_id : Z) (d_type : option string)
    (need_copy force_refresh : bool) (now : Z) : M pyref :=
  reraise_as ConnectionError (
    hit <- gets (in_buffer Users user_id) ;;
    (if force_refresh || negb hit then
       found <- find_one _users_db [("_id", VInt user_id)] ;;
       user <-
         match found with
         | Some doc =>
             if truthy doc then ret doc
             else
               let fresh := VDict (dict_merge [("_id", VInt user_id)] _user_base) in
               reraise_as ConnectionError (insert_one _users_db fresh) ;;
               ret fresh
         | None =>
             let fresh := VDict (dict_merge [("_id", VInt user_id)] _user_base) in
             reraise_as ConnectionError (insert_one _users_db fresh) ;;
             ret fresh
         end ;;
       l <- alloc user ;;
       modify (fun h => with_users_buffer (<[user_id := l]> (_users_buffer h)) h) ;;
       modify (fun h => with_last_access (la_set user_id now (_last_access h)) h)
     else ret tt) ;;
    l <- cached Users user_id ;;
    user <-
      match d_type with
      | Some t =>
          if String.eqb t "" then ret (Whole l)
          else if negb (dict_mem t _user_base) then raise ValueError
          else
            o <- load l ;;
            match o with
            | VDict m =>
                (if dict_mem t m then ret tt
                 else store l (VDict (dict_set t
                        (default VNone (dict_get t _user_base)) m))) ;;
                ret (Field l t)
            | _ => raise AttributeError
            end
      | None => ret (Whole l)
      end ;;
    if need_copy then deepcopy user else ret user).

(** [filter_['_id']] when ['_id' in filter_] *)
Definition filter_id (filter_ : list (string * value)) : option Z :=
  match dict_get "_id" filter_ with
  | Some v => as_int v
  | None => None
  end.

Definition _update_db (db : collection) (cache : pyref)
    (filter_ : list (string * value)) (data : update_data) (now : Z) : M bool :=
  catch (
    (if all_valid data then ret tt else raise ValueError) ;;
    before <- deref cache ;;
    let '(after, e) := apply_data data before in
    assign cache after ;;
    match e with Some x => raise x | None => ret tt end ;;
    modified_count <- update_one db filter_ data ;;
    match filter_id filter_ with
    | Some k =>
        modify (fun h => with_last_access (la_set k now (_last_access h)) h)
    | None => ret tt
    end ;;
    ret (0 <? modified_count))
  (fun _ =>
    match filter_id filter_ with
    | Some k =>
        modify (fun h =>
          with_users_buffer (delete k (_users_buffer h))
            (with_settings_buffer (delete k (_settings_buffer h)) h))
    | None => ret tt
    end ;;
    raise GenericException).

(** [{"_id": key, **data.get("$set", {})}] *)
Definition upsert_doc (key : Z) (data : update_data) : value :=
  VDict (dict_merge [("_id", VInt key)]
           (default [] (PyDict.get String.eqb "$set" data))).

Definition update_settings (guild_id : Z) (data : update_data) (upsert : bool)
    (now_get now_update : Z) : M bool :=
  reraise_as ConnectionError (
    settings <- get_settings guild_id false now_get ;;
    result <- _update_db _settings_db settings [("_id", VInt guild_id)] data
                now_update ;;
    if negb result && upsert then
      let settings := upsert_doc guild_id data in
      insert_one _settings_db settings ;;
      l <- alloc settings ;;
      modify (fun h =>
        with_settings_buffer (<[guild_id := l]> (_settings_buffer h)) h) ;;
      ret true
    else ret result).

Definition update_user (user_id : Z) (data : update_data) (upsert : bool)
    (now_get now_update : Z) : M bool :=
  reraise_as ConnectionError (
    user <- get_user user_id None false false now_get ;;
    result <- _update_db _users_db user [("_id", VInt user_id)] data
                now_update ;;
    if negb result && upsert then
      let user_data := upsert_doc user_id data in
      insert_one _users_db user_data ;;
      l <- alloc user_data ;;
      modify (fun h => with_users_buffer (<[user_id := l]> (_users_buffer h)) h) ;;
      ret true
    else ret result).

Definition delete_user (user_id : Z) : M bool :=
  reraise_as ConnectionError (
    deleted_count <- delete_one _users_db [("_id", VInt user_id)] ;;
    if 0 <? deleted_count then
      modify (fun h => with_users_buffer (delete user_id (_users_buffer h)) h) ;;
      modify (fun h => with_last_access (la_remove user_id (_last_access h)) h) ;;
      ret true
    else ret false).

(** The loop that files every fetched user in the cache; the caller
    gets the very objects the cache now holds. *)
Fixpoint cache_users (users : list value) (current_time : Z) : M (list pyref) :=
  match users with
  | [] => ret []
  | user :: rest =>
      l <- alloc user ;;
      user_id <-
        match user with
        | VDict m =>
            match dict_get "_id" m with
            | Some v => as_key v
            | None => raise KeyError
            end
        | _ => raise TypeError
        end ;;
      modify (fun h => with_users_buffer (<[user_id := l]> (_users_buffer h)) h) ;;
      modify (fun h =>
        with_last_access (la_set user_id current_time (_last_access h)) h) ;;
      refs <- cache_users rest current_time ;;
      ret (Whole l :: refs)
  end.

(** The cursor that [get_users_by_criteria] builds: [if limit:] is
    false for [None] and for [0]. *)
Definition users_cursor (criteria : value) (limit : option Z) (skip : Z)
  : M cursor :=
  cur <- cursor_skip skip (find _users_db criteria) ;;
  match limit with
  | Some n => if n =? 0 then ret cur else ret (cursor_limit n cur)
  | None => ret cur
  end.

Definition get_users_by_criteria (criteria : value) (limit : option Z)
    (skip : Z) (now : Z) : M (list pyref) :=
  reraise_as ConnectionError (
    cur <- users_cursor criteria limit skip ;;
    users <- to_list cur ;;
    cache_users users now).

(** ** The maintenance sweep *)

(** The ids whose timestamp is older than the TTL and that the settings
    cache holds, in the order of [_last_access]. *)
Definition expired_settings (current_time : Z) (h : handler) : list Z :=
  map fst
    (List.filter
       (fun entry =>
          (current_time - snd entry >? _CACHE_TTL h)
          && in_buffer Settings (fst entry) h)
       (_last_access h)).

(** [del cls._settings_buffer[k]] *)
Definition del_settings (k : Z) : M unit :=
  fun h =>
    match _settings_buffer h !! k with
    | Some _ => (Ok tt, with_settings_buffer (delete k (_settings_buffer h)) h)
    | None => (Raise KeyError, h)
    end.

(** [del cls._last_access[k]] *)
Definition del_last_access (k : Z) : M unit :=
  fun h =>
    match la_get k (_last_access h) with
    | Some _ => (Ok tt, with_last_access (la_remove k (_last_access h)) h)
    | None => (Raise KeyError, h)
    end.

Fixpoint remove_expired (ids : list Z) : M unit :=
  match ids with
  | [] => ret tt
  | guild_id :: rest =>
      del_settings guild_id ;;
      del_last_access guild_id ;;
      remove_expired rest
  end.

(** [min(items, key=lambda x: x[1])]: the first pair among those with
    the smallest timestamp. *)
Fixpoint oldest (items : list (Z * Z)) : option (Z * Z) :=
  match items with
  | [] => None
  | x :: rest =>
      match oldest rest with
      | Some y => if snd y <? snd x then Some y else Some x
      | None => Some x
      end
  end.

(** The [while] loop, for at most [fuel] rounds ([None]: the rounds
    were not enough). *)
Fixpoint evict_oldest (fuel : nat) (h : handler) : option (result unit * handler) :=
  if Z.of_nat (size (_settings_buffer h)) >? _MAX_CACHE_SIZE h then
    match fuel with
    | O => None
    | S fuel' =>
        match oldest (_last_access h) with
        | None => Some (Raise ValueError, h)
        | Some (oldest_id, _) =>
            match (del_settings oldest_id ;; del_last_access oldest_id) h with
            | (Ok _, h') => evict_oldest fuel' h'
            | (Raise e, h') => Some (Raise e, h')
            end
        end
    end
  else Some (Ok tt, h).

(** One sweep.  Whatever is raised inside is logged and dropped, so the
    sweep itself never raises; a round of the loop takes an entry out
    of the settings cache, so one round more than its size is
    enough. *)
Definition cleanup_cache (current_time : Z) (h : handler) : option handler :=
  match remove_expired (expired_settings current_time h) h with
  | (Raise _, h1) => Some h1
  | (Ok _, h1) =>
      match evict_oldest (S (size (_settings_buffer h1))) h1 with
      | Some (_, h2) => Some h2
      | None => None
      end
  end.

(** ** Observations *)

(** The document a cache holds for a key. *)
Definition cached_doc (c : collection) (k : Z) (h : handler) : option value :=
  match buffer_of c h !! k with
  | Some l => objects h !! l
  | None => None
  end.

(** What a reference shows when it is read. *)
Definition value_of (r : pyref) (h : handler) : option value :=
  match deref r h with
  | (Ok v, _) => Some v
  | (Raise _, _) => None
  end.

(** The two public reads and the two public updates, by collection. *)
Definition get (c : collection) (key : Z) (d_type : option string)
    (force_refresh : bool) (now : Z) : M pyref :=
  match c with
  | Settings => get_settings key force_refresh now
  | Users => get_user key d_type true force_refresh now
  end.

Definition update (c : collection) (key : Z) (data : update_data)
    (upsert : bool) (now_get now_update : Z) : M bool :=
  match c with
  | Settings => update_settings key data upsert now_get now_update
  | Users => update_user key data upsert now_get now_update
  end.

(** A caller changes, in whatever way, the object it holds. *)
Definition caller_writes (l : loc) (v : value) (h : handler) : handler :=
  with_objects (<[l := v]> (objects h)) (next_object h) h.

(** Every cached object has been allocated. *)
Definition allocated (h : handler) : Prop :=
  map_Forall (fun _ l => (l < next_object h)%positive) (_settings_buffer h) /\
  map_Forall (fun _ l => (l < next_object h)%positive) (_users_buffer h).

(** [_last_access] is a dict: one timestamp per id. *)
Definition one_timestamp_per_id (h : handler) : Prop :=
  NoDup (map fst (_last_access h)).

Definition has_field (name : string) (d : value) : bool :=
  match d with VDict m => dict_mem name m | _ => false end.

Definition has_user_fields (d : value) : bool :=
  has_field "playlist" d && has_field "history" d && has_field "inbox" d.

Definition user_fields : list string := ["playlist"; "history"; "inbox"].

(** No edit of the update is a [$unset] of one of the three top-level
    user fields. *)
Definition keeps_user_fields (data : update_data) : bool :=
  forallb
    (fun op =>
       negb (String.eqb (fst op) "$unset")
       || forallb
            (fun edit => negb (existsb (String.eqb (fst edit)) user_fields))
            (snd op))
    data.

(** The value a dotted path leads to. *)
Fixpoint path_get (cursors : list string) (d : value) : option value :=
  match cursors with
  | [] => Some d
  | c :: rest =>
      match d with
      | VDict m =>
          match dict_get c m with
          | Some v => path_get rest v
          | None => None
          end
      | _ => None
      end
  end.

(** The call counted [n] fails at the transport. *)
Definition faulty (n : nat) (b : backend) : bool := nth n (faults b) false.

(** ** A backend to run the handler against

    It matches a query by equality on the top-level fields the query
    names, and applies an update document the way [apply_data] does,
    refusing it when an edit fails. *)

Definition fields_match (criteria d : value) : bool :=
  match criteria, d with
  | VDict cs, VDict m =>
      forallb
        (fun kv =>
           match dict_get (fst kv) m with
           | Some w => py_eqb (snd kv) w
           | None => false
           end)
        cs
  | _, _ => false
  end.

Definition edit_or_refuse (data : update_data) (d : value) : option value :=
  match apply_data data d with
  | (d', None) => Some d'
  | (_, Some _) => None
  end.

Definition server (settings users : list value) : backend :=
  Backend settings users fields_match edit_or_refuse [] [].

Definition with_limits (ttl max : Z) (h : handler) : handler :=
  Handler ttl max (_settings_buffer h) (_users_buffer h) (_last_access h)
    (objects h) (next_object h) (_db h).

Definition after {A} (m : M A) (h : handler) : handler := snd (m h).

Definition plain_user (user_id : Z) : value :=
  VDict [ ("_id", VInt user_id); ("playlist", VDict []);
          ("history", VList []); ("inbox", VList []) ].

(** ** Example states *)

(** Guild 7 is known to the backend and has been read once. *)
Definition guild7 : handler :=
  after (get_settings 7 false 100) (initial (server [VDict [("_id", VInt 7)]] [])).

(** User 42 is known to the backend and has been read once. *)
Definition user42 : handler :=
  after (get_user 42 None true false 100) (initial (server [] [plain_user 42])).

(** User 42 with a text field. *)
Definition named42 : handler :=
  after (get_user 42 None true false 100)
    (initial (server []
       [VDict [ ("_id", VInt 42); ("name", VStr "x"); ("playlist", VDict []);
                ("history", VList []); ("inbox", VList []) ]])).

(** Id 5 is a guild and a user; the guild was read at 10, the user at 20. *)
Definition both5 : handler :=
  after (get_settings 5 false 10 ;; get_user 5 None true false 20)
    (initial (server [VDict [("_id", VInt 5)]] [plain_user 5])).

(** Two guilds read after a user, with room for one entry. *)
Definition crowded : handler :=
  with_limits 300 1
    (after (get_user 5 None true false 0 ;; get_settings 1 false 10 ;;
            get_settings 2 false 20)
       (initial (server [VDict [("_id", VInt 1)]; VDict [("_id", VInt 2)]]
                  [plain_user 5]))).

Definition set_prefix : update_data := [("$set", [("prefix", VStr "!")])].

Definition five : list value := [VInt 1; VInt 2; VInt 3; VInt 4; VInt 5].

Definition push_each_slice (items : list value) (n : Z) : update_data :=
  [("$push", [("history", VDict [("$each", VList items); ("$slice", VInt n)])])].

Definition inc_name : update_data := [("$inc", [("name", VInt 1)])].

Definition unset_playlist : update_data := [("$unset", [("playlist", VInt 1)])].

Definition set_same_history : update_data := [("$set", [("history", VList [])])].

(** The users a query is about: those that match, after the skip. *)
Definition matching_users (criteria : value) (skip : Z) (h : handler) : list value :=
  drop (Z.to_nat skip)
    (filter (fun d => server_match (_db h) criteria d = true) (users_docs (_db h))).

Definition has_int_id (d : value) : bool :=
  match d with
  | VDict m =>
      match dict_get "_id" m with
      | Some v => match as_int v with Some _ => true | None => false end
      | None => false
      end
  | _ => false
  end.

(** What a computation lets its caller see: the value behind the
    reference it returns, or the exception. *)
Definition outcome (m : M pyref) (h : handler) : result (option value) :=
  match m h with
  | (Ok r, h') => Ok (value_of r h')
  | (Raise e, _) => Raise e
  end.

(** The part of a user document that [d_type] selects. *)
Definition selected (d_type : option string) (doc : value) : option value :=
  match d_type with
  | Some t =>
      if String.eqb t "" then Some doc
      else match doc with VDict m => dict_get t m | _ => None end
  | None => Some doc
  end.

(** No cache holds the object at [l]; it has been allocated. *)
Definition unshared (l : loc) (h : handler) : Prop :=
  (l < next_object h)%positive /\
  map_Forall (fun _ l0 => l0 <> l) (_settings_buffer h) /\
  map_Forall (fun _ l0 => l0 <> l) (_users_buffer h).

(** ** The refresh block of a read

    [get_settings] and [get_user] share it word for word: fetch by
    primary key, create the default document when there is none, file
    the document and stamp the id. *)
Definition load_document (c : collection) (k : Z) (fresh : value) (now : Z)
  : M unit :=
  found <- find_one c [("_id", VInt k)] ;;
  doc <-
    match found with
    | Some doc =>
        if truthy doc then ret doc
        else reraise_as ConnectionError (insert_one c fresh) ;; ret fresh
    | None => reraise_as ConnectionError (insert_one c fresh) ;; ret fresh
    end ;;
  l <- alloc doc ;;
  modify (fun h => with_buffer c (<[k := l]> (buffer_of c h)) h) ;;
  modify (fun h => with_last_access (la_set k now (_last_access h)) h).

(** The default documents. *)
Definition default_settings (guild_id : Z) : value :=
  VDict [("_id", VInt guild_id)].

Definition default_user (user_id : Z) : value :=
  VDict (dict_merge [("_id", VInt user_id)] _user_base).

(** The [d_type] block of [get_user]. *)
Definition select_field (l : loc) (d_type : option string) : M pyref :=
  match d_type with
  | Some t =>
      if String.eqb t "" then ret (Whole l)
      else if negb (dict_mem t _user_base) then raise ValueError
      else
        o <- load l ;;
        match o with
        | VDict m =>
            (if dict_mem t m then ret tt
             else store l (VDict (dict_set t
                    (default VNone (dict_get t _user_base)) m))) ;;
            ret (Field l t)
        | _ => raise AttributeError
        end
  | None => ret (Whole l)
  end.

(** A computation run at [h] does not depend on the object at [l], and
    leaves it alone: with any other value there, it does the same. *)
Definition framed (l : loc) {A} (m : M A) (h : handler) : Prop :=
  unshared l (snd (m h)) /\
  forall v, m (caller_writes l v h) = (fst (m h), caller_writes l v (snd (m h))).

(** The read that an update starts with. *)
Definition read_for_update (c : collection) (key : Z) (now : Z) : M pyref :=
  match c with
  | Settings => get_settings key false now
  | Users => get_user key None false false now
  end.

Definition rename_prefix : update_data := [("$rename", [("prefix", VStr "p")])].

Definition set_name (name : string) : update_data :=
  [("$set", [("playlist.201.name", VStr name)])].

Definition inc_history : update_data := [("$inc", [("history", VInt 1)])].

(** [cls._settings_buffer.pop(k, None); cls._users_buffer.pop(k, None)] *)
Definition evicted (k : Z) (h : handler) : handler :=
  with_users_buffer (delete k (_users_buffer h))
    (with_settings_buffer (delete k (_settings_buffer h)) h).

(** What a sweep may change: it only takes entries out of the settings
    cache and out of the timestamps. *)
Definition swept (h h' : handler) : Prop :=
  _CACHE_TTL h' = _CACHE_TTL h /\
  _MAX_CACHE_SIZE h' = _MAX_CACHE_SIZE h /\
  _users_buffer h' = _users_buffer h /\
  objects h' = objects h /\
  next_object h' = next_object h /\
  _db h' = _db h /\
  _settings_buffer h' ⊆ _settings_buffer h /\
  sublist (_last_access h') (_last_access h).

(** The timestamp of [k] is older than the TTL at [current_time]. *)
Definition expired (current_time : Z) (k : Z) (h : handler) : Prop :=
  exists t, la_get k (_last_access h) = Some t /\ current_time - t > _CACHE_TTL h.

(** The timestamps are those of the cached settings: an id has a
    timestamp exactly when the settings cache holds it. *)
Definition settings_tracked (h : handler) : Prop :=
  forall k, is_Some (la_get k (_last_access h)) <-> is_Some (_settings_buffer h !! k).

(** The same, as an equation between sets of ids. *)
Definition stamps_are_settings_keys (h : handler) : Prop :=
  dom (_settings_buffer h) = (list_to_set (map fst (_last_access h)) : gset Z).

(** Two guilds and no user, with room for one entry. *)
Definition two_guilds : handler :=
  with_limits 300 1
    (after (get_settings 1 false 10 ;; get_settings 2 false 20)
       (initial (server [VDict [("_id", VInt 1)]; VDict [("_id", VInt 2)]] []))).

(** The key under which the bulk read files a fetched user:
    [user["_id"]]. *)
Definition user_key (d : value) : option Z :=
  match d with
  | VDict m => dict_get "_id" m ≫= as_int
  | _ => None
  end.

(** What the backend answers to the query that [get_users_by_criteria]
    builds. *)
Definition fetched_users (criteria : value) (limit : option Z) (skip : Z)
    (h : handler) : list value :=
  run_cursor (_db h)
    (Cursor Users criteria skip
       (match limit with
        | Some n => if n =? 0 then None else Some n
        | None => None
        end)).

(** Whatever state a computation is run in, the state it leaves is
    related to it by [R]. *)
Definition respects (R : relation handler) {A} (m : M A) : Prop :=
  forall h, R h (snd (m h)).

(** Nothing but the object store differs. *)
Definition only_objects (h h' : handler) : Prop :=
  _db h' = _db h /\ _last_access h' = _last_access h /\
  _settings_buffer h' = _settings_buffer h /\ _users_buffer h' = _users_buffer h.

(** The backend has been sent some more calls, and no call has been
    forgotten. *)
Definition calls_extend (h h' : handler) : Prop :=
  exists more, calls (_db h') = calls (_db h) ++ more.

(** ** Two callers of the handler, from [cogs/playlist.py] *)

(** [str(i)] *)
Definition py_str (i : Z) : string := NilZero.string_of_int (Z.to_int i).

(** [range(a, b)] *)
Definition py_range (a b : Z) : list Z :=
  map (fun n => a + Z.of_nat n) (seq 0 (Z.to_nat (b - a))).

(** The loop of [assign_playlist_id]: the first id whose text is not
    in [existed]; falling off the end of the loop returns [None]. *)
Fixpoint first_free (ids : list Z) (existed : list string) : option string :=
  match ids with
  | [] => None
  | i :: rest =>
      if negb (existsb (String.eqb (py_str i)) existed) then Some (py_str i)
      else first_free rest existed
  end.

Definition assign_playlist_id (existed : list string) : option string :=
  first_free (py_range 200 210) existed.

(** [v.get(key)] *)
Definition py_get (v : value) (key : string) : M value :=
  match v with
  | VDict m => ret (default VNone (dict_get key m))
  | _ => raise AttributeError
  end.

(** [v[key]] for a string [key] *)
Definition py_getitem (v : value) (key : string) : M value :=
  match v with
  | VDict m =>
      match dict_get key m with
      | Some x => ret x
      | None => raise KeyError
      end
  | _ => raise TypeError
  end.

Definition check_playlist_perms (user_id author_id : Z) (playlist_id : string)
    (now : Z) : M value :=
  user_data <- get_user author_id (Some "playlist") true false now ;;
  user_data <- deref user_data ;;
  playlist <- py_get user_data playlist_id ;;
  if negb (truthy playlist) then ret (VDict [])
  else
    perms <- py_getitem playlist "perms" ;;
    read <- py_getitem perms "read" ;;
    match py_contains read (VInt user_id) with
    | Some true => ret playlist
    | Some false => ret (VDict [])
    | None => raise TypeError
    end.

(** User 1 shares playlist 200 with user 2. *)
Definition sharing : handler :=
  initial (server []
    [VDict [ ("_id", VInt 1);
             ("playlist",
               VDict [("200",
                 VDict [ ("tracks", VList []);
                         ("perms", VDict [("read", VList [VInt 2])]);
                         ("name", VStr "Favourite");
                         ("type", VStr "playlist") ])]);
             ("history", VList []); ("inbox", VList []) ]]).

(** * Properties *)

(** ** The code at the inputs where it departs from its description *)

(** C1, at guild 7 with [{"$set": {"prefix": "!"}}]: [update_settings]
    edits the copy that [get_settings] handed out.  The call succeeds
    and the backend holds the new field, but the settings cache still
    holds the document as it was, not the result of applying the
    operations to it. *)
Theorem update_settings_leaves_cache_stale :
  let before := VDict [("_id", VInt 7)] in
  let edited := VDict [("_id", VInt 7); ("prefix", VStr "!")] in
  let h' := after (update_settings 7 set_prefix false 101 102) guild7 in
  cached_doc Settings 7 guild7 = Some before /\
  fst (update_settings 7 set_prefix false 101 102 guild7) = Ok true /\
  fst (apply_data set_prefix before) = edited /\
  settings_docs (_db h') = [edited] /\
  cached_doc Settings 7 h' = Some before /\
  cached_doc Settings 7 h' <> Some edited.
Proof. vm_compute. repeat split; discriminate. Qed.

(** C3, at [{"$each": [1,2,3,4,5], "$slice": 3}] pushed to an empty
    list: [arr[3:]] drops the first three items, where keeping the
    first three is what the slice asks for. *)
Theorem push_slice_3_drops_the_first_three :
  let h' := after (update_user 42 (push_each_slice five 3) false 101 102) user42 in
  fst (update_user 42 (push_each_slice five 3) false 101 102 user42) = Ok true /\
  (path_get ["history"] <$> cached_doc Users 42 h')
    = Some (Some (VList [VInt 4; VInt 5])) /\
  slice_from 3 five = [VInt 4; VInt 5] /\
  slice_from 3 five <> take 3 five.
Proof. vm_compute. repeat split; discriminate. Qed.

(** C6, at user 42 on an empty backend: the ["_id": 0] of [_user_base]
    overwrites the id in [{"_id": user_id, **_user_base}], whoever the
    user is.  The default document is stored and cached with id 0, a
    read of the backend by id 42 finds nothing, and the next new user
    cannot be created because id 0 is taken. *)
Theorem default_user_is_stored_under_id_0 :
  let h' := after (get_user 42 None true false 100) (initial (server [] [])) in
  (forall user_id, dict_merge [("_id", VInt user_id)] _user_base = _user_base) /\
  doc_id (VDict _user_base) = Some (VInt 0) /\
  cached_doc Users 42 h' = Some (VDict _user_base) /\
  users_docs (_db h') = [VDict _user_base] /\
  fst (find_one Users [("_id", VInt 42)] h') = Ok None /\
  fst (get_user 43 None true false 101 h') = Raise ConnectionError.
Proof. split; [reflexivity | vm_compute; repeat split]. Qed.

(** ** Inputs at which a claim, as worded, fails *)

(** C2: a user entry read at time 0 is still cached after a sweep at
    time 1000 with a TTL of 300; and with room for one entry, two
    guilds read after a user both survive a sweep, because the oldest
    timestamp is the user's. *)
Lemma sweep_spares_users_and_stays_over_size :
  la_get 5 (_last_access both5) = Some 20 /\
  1000 - 20 > _CACHE_TTL both5 /\
  (in_buffer Users 5 <$> cleanup_cache 1000 both5) = Some true /\
  (in_buffer Settings 5 <$> cleanup_cache 1000 both5) = Some false /\
  _MAX_CACHE_SIZE crowded = 1 /\
  ((fun h => size (_settings_buffer h)) <$> cleanup_cache 30 crowded) = Some 2%nat.
Proof. vm_compute. repeat split. Qed.

(** C4: incrementing the text field [name] of the cached user 42 is
    reported as a [ConnectionError], and the cache no longer holds the
    document at all. *)
Lemma inc_on_text_evicts_the_entry :
  let m := update_user 42 inc_name false 101 102 in
  (path_get ["name"] <$> cached_doc Users 42 named42) = Some (Some (VStr "x")) /\
  fst (m named42) = Raise ConnectionError /\
  cached_doc Users 42 (after m named42) = None /\
  _db (after m named42) = _db named42.
Proof. vm_compute. repeat split. Qed.

(** C5: an upserting update of user 42 that changes nothing goes on to
    [insert_one], which the backend refuses (the id exists).  The call
    fails, the entry stays cached, and the next read is served from the
    cache without a call to the backend. *)
Lemma failed_upsert_keeps_the_entry :
  let m := update_user 42 set_same_history true 101 102 in
  let h' := after m user42 in
  fst (m user42) = Raise ConnectionError /\
  List.last (calls (_db h')) (FindOne Users [])
    = InsertOne Users (VDict [("_id", VInt 42); ("history", VList [])]) /\
  in_buffer Users 42 h' = true /\
  calls (_db (after (get_user 42 None true false 200) h')) = calls (_db h').
Proof. vm_compute. repeat split. Qed.

(** C7: [$unset] of [playlist] succeeds, and the cached user document,
    and what [get_user] returns from then on, has no [playlist]. *)
Lemma unset_removes_playlist :
  let h' := after (update_user 42 unset_playlist false 101 102) user42 in
  (has_user_fields <$> cached_doc Users 42 user42) = Some true /\
  fst (update_user 42 unset_playlist false 101 102 user42) = Ok true /\
  (has_field "playlist" <$> cached_doc Users 42 h') = Some false /\
  match get_user 42 None true false 200 h' with
  | (Ok r, h'') => (has_field "playlist" <$> value_of r h'') = Some false
  | (Raise _, _) => False
  end.
Proof. vm_compute. repeat split. Qed.

(** C9: id 5 is cached as a guild and as a user; a read of user 5 at
    time 1000 is served from the cache and leaves the timestamp of id 5
    where it was. *)
Lemma cached_read_keeps_the_timestamp :
  let m := get_user 5 None true false 1000 in
  in_buffer Settings 5 both5 = true /\
  in_buffer Users 5 both5 = true /\
  la_get 5 (_last_access both5) = Some 20 /\
  (exists r, fst (m both5) = Ok r) /\
  la_get 5 (_last_access (after m both5)) = Some 20.
Proof. vm_compute. repeat split. eexists; reflexivity. Qed.

(** ** Running computations *)

Ltac run :=
  unfold reraise_as, catch, bind, ret, raise, gets, modify in *; simpl in *.

Lemma value_of_whole l h : value_of (Whole l) h = objects h !! l.
Proof. unfold value_of, deref, load. by destruct (objects h !! l). Qed.

(** ** Bulk reads *)

Lemma cache_users_returns users now h refs h' :
  cache_users users now h = (Ok refs, h') ->
  _db h' = _db h /\
  (next_object h <= next_object h')%positive /\
  (forall l, (l < next_object h)%positive -> objects h' !! l = objects h !! l) /\
  Forall2 (fun r d => value_of r h' = Some d) refs users.
Proof.
  revert h refs h'. induction users as [|user rest IH]; intros h refs h' H.
  - run. inversion H; subst.
    split; [done | split; [lia | split; [done | constructor]]].
  - simpl in H. unfold bind at 1 in H. unfold alloc in H.
    unfold bind at 1 in H.
    destruct user as [| | | | |m]; try (run; discriminate).
    destruct (dict_get "_id" m) as [v|] eqn:Hid; [|run; discriminate].
    unfold as_key in H. destruct (as_int v) as [k|]; [|run; discriminate].
    run.
    match type of H with
    | match cache_users rest now ?h1 with _ => _ end = _ =>
        destruct (cache_users rest now h1) as [[refs'|e] h2] eqn:Hrest;
        [|discriminate]
    end.
    inversion H; subst. apply IH in Hrest as (Hdb & Hnext & Hobj & Hall).
    simpl in *. split; [done | split; [lia | split]].
    + intros l Hl. rewrite Hobj by lia. apply lookup_insert_ne. lia.
    + constructor; [|done].
      rewrite value_of_whole, Hobj by lia. apply lookup_insert_eq.
Qed.

Lemma cache_users_total users now h :
  forallb has_int_id users = true ->
  exists refs h', cache_users users now h = (Ok refs, h').
Proof.
  revert h. induction users as [|user rest IH]; intros h Hall.
  - by exists [], h.
  - simpl in Hall. apply andb_prop in Hall as [Hid Hrest].
    destruct user as [| | | | |m]; try discriminate.
    simpl in Hid. destruct (dict_get "_id" m) as [v|] eqn:Hv; [|discriminate].
    destruct (as_int v) as [k|] eqn:Hk; [|discriminate].
    simpl. unfold bind at 1. unfold alloc. unfold bind at 1.
    rewrite Hv. unfold as_key. rewrite Hk. run.
    match goal with
    | |- context [cache_users rest now ?h1] =>
        destruct (IH h1 Hrest) as (refs & h' & ->)
    end.
    by eexists _, _.
Qed.

(** C10: a limit of 0 builds the same query as no limit at all, the
    query reaches the backend without a limit, and what the call
    returns is every matching user after the skip; the call does return
    when the skip is not negative, the backend answers and the users
    found carry integer ids. *)
Theorem limit_zero_is_no_limit criteria skip now h :
  get_users_by_criteria criteria (Some 0) skip now h
    = get_users_by_criteria criteria None skip now h /\
  (forall refs h',
     get_users_by_criteria criteria (Some 0) skip now h = (Ok refs, h') ->
     calls (_db h') = calls (_db h) ++ [Find Users criteria skip None] /\
     Forall2 (fun r d => value_of r h' = Some d) refs
       (matching_users criteria skip h)) /\
  (0 <= skip ->
   faulty (List.length (calls (_db h))) (_db h) = false ->
   forallb has_int_id (matching_users criteria skip h) = true ->
   exists refs h',
     get_users_by_criteria criteria (Some 0) skip now h = (Ok refs, h')).
Proof.
  split; [reflexivity|]. split.
  - intros refs h'. unfold get_users_by_criteria, users_cursor, cursor_skip, to_list,
      backend_call, faulty. run.
    destruct (skip <? 0); [discriminate|]. simpl.
    destruct (nth _ (faults _) false); [discriminate|]. simpl.
    match goal with
    | |- context [cache_users ?us now ?h1] =>
        destruct (cache_users us now h1) as [[refs'|e] h2] eqn:Hc; [|discriminate]
    end.
    intros H; inversion H; subst.
    apply cache_users_returns in Hc as (Hdb & _ & _ & Hall).
    split; [by rewrite Hdb | exact Hall].
  - intros Hskip Hfault Hids.
    unfold get_users_by_criteria, users_cursor, cursor_skip, to_list,
      backend_call. unfold faulty in Hfault. run.
    destruct (skip <? 0) eqn:Hs; [lia|]. simpl. rewrite Hfault. simpl.
    match goal with
    | |- context [cache_users ?us now ?h1] =>
        destruct (cache_users_total us now h1 Hids) as (refs & h' & ->)
    end.
    by eexists _, _.
Qed.

Lemma limit_zero_is_no_limit_witness :
  exists refs h',
    get_users_by_criteria (VDict []) (Some 0) 0 100 (initial (server [] [plain_user 1; plain_user 2]))
      = (Ok refs, h') /\
    Forall2 (fun r d => value_of r h' = Some d) refs [plain_user 1; plain_user 2].
Proof.
  pose proof (limit_zero_is_no_limit (VDict []) 0 100
                (initial (server [] [plain_user 1; plain_user 2]))) as (_ & Hret & Htot).
  destruct Htot as (refs & h' & Hrun); [lia | reflexivity | reflexivity |].
  exists refs, h'. split; [exact Hrun|]. exact (proj2 (Hret refs h' Hrun)).
Defined.

(** ** Reads hand out copies *)

Lemma below_weaken (m : gmap Z loc) (n n' : loc) :
  map_Forall (fun _ l0 => (l0 < n)%positive) m -> (n <= n')%positive ->
  map_Forall (fun _ l0 => (l0 < n')%positive) m.
Proof. intros H Hn. eapply map_Forall_impl; [exact H|]. simpl. intros; lia. Qed.

Lemma below_apart (m : gmap Z loc) (n l : loc) :
  map_Forall (fun _ l0 => (l0 < n)%positive) m -> (n <= l)%positive ->
  map_Forall (fun _ l0 => l0 <> l) m.
Proof. intros H Hn. eapply map_Forall_impl; [exact H|]. simpl. intros; lia. Qed.

Ltac bounds :=
  repeat match goal with
  | |- _ /\ _ => split
  | |- allocated _ => split; simpl
  | |- unshared _ _ => split; simpl
  | |- map_Forall _ (<[_ := _]> _) => apply map_Forall_insert_2
  | H : map_Forall _ ?m |- map_Forall (fun _ l0 => (l0 < _)%positive) ?m =>
      apply (below_weaken _ _ _ H)
  | H : map_Forall _ ?m |- map_Forall (fun _ l0 => l0 <> _) ?m =>
      apply (below_apart _ _ _ H)
  end; try lia.

Lemma get_settings_fresh k fr now h r h' :
  allocated h ->
  get_settings k fr now h = (Ok r, h') ->
  exists l, r = Whole l /\ unshared l h' /\ allocated h' /\
    value_of r h' = cached_doc Settings k h'.
Proof.
  intros [Hs Hu]. unfold get_settings, find_one, insert_one, backend_call,
    deepcopy, deref, load, alloc, cached, in_buffer, cached_doc.
  run.
  repeat (case_match; simplify_eq/=; try discriminate); intros; simplify_eq/=.
  all: eexists; split; [reflexivity|].
  all: try rewrite value_of_whole; simpl.
  all: repeat match goal with
         | H : <[?k := _]> _ !! ?k = _ |- _ => rewrite lookup_insert_eq in H
         end; simplify_eq/=.
  all: rewrite ?lookup_insert_eq.
  all: bounds.
  all: repeat match goal with
         | Hm : map_Forall _ ?m, H : ?m !! _ = Some _ |- _ =>
             pose proof (map_Forall_lookup_1 _ _ _ _ Hm H); clear H
         end; simpl in *.
  all: rewrite lookup_insert_ne by lia; by symmetry.
Qed.

(** ** The two reads, phase by phase *)

Lemma get_settings_eq k fr now :
  get_settings k fr now
  = reraise_as ConnectionError (
      hit <- gets (in_buffer Settings k) ;;
      (if fr || negb hit then load_document Settings k (default_settings k) now
       else ret tt) ;;
      l <- cached Settings k ;;
      deepcopy (Whole l)).
Proof. reflexivity. Qed.

Lemma get_user_eq k d_type nc fr now :
  get_user k d_type nc fr now
  = reraise_as ConnectionError (
      hit <- gets (in_buffer Users k) ;;
      (if fr || negb hit then load_document Users k (default_user k) now
       else ret tt) ;;
      l <- cached Users k ;;
      user <- select_field l d_type ;;
      if nc then deepcopy user else ret user).
Proof. reflexivity. Qed.

(** ** Sequencing *)

Lemma bind_ok {A B} (m : M A) (k : A -> M B) h b h' :
  bind m k h = (Ok b, h') ->
  exists a h1, m h = (Ok a, h1) /\ k a h1 = (Ok b, h').
Proof.
  unfold bind. destruct (m h) as [[a|e] h1]; [|discriminate].
  intros H. by exists a, h1.
Qed.

Lemma bind_raise {A B} (m : M A) (k : A -> M B) h e h' :
  bind m k h = (Raise e, h') ->
  m h = (Raise e, h') \/ exists a h1, m h = (Ok a, h1) /\ k a h1 = (Raise e, h').
Proof.
  unfold bind. destruct (m h) as [[a|e0] h1]; intros H.
  - right. by exists a, h1.
  - left. by inversion H.
Qed.

Lemma reraise_ok {A} e (m : M A) h a h' :
  reraise_as e m h = (Ok a, h') -> m h = (Ok a, h').
Proof. unfold reraise_as, catch, raise. by destruct (m h) as [[a0|e0] h1]. Qed.

Lemma reraise_raise {A} e (m : M A) h e' h' :
  reraise_as e m h = (Raise e', h') -> e' = e /\ exists e0, m h = (Raise e0, h').
Proof.
  unfold reraise_as, catch, raise. destruct (m h) as [[a0|e0] h1]; [done|].
  intros H; inversion H; subst. split; [done|]. by exists e0.
Qed.

(** ** Computations that leave an object alone *)

Lemma framed_bind l {A B} (m : M A) (k : A -> M B) h :
  framed l m h ->
  (forall a h1, m h = (Ok a, h1) -> unshared l h1 -> framed l (k a) h1) ->
  framed l (bind m k) h.
Proof.
  intros [Hu Hm] Hk. unfold framed, bind in *.
  destruct (m h) as [[a|e] h1] eqn:E; simpl in *.
  - destruct (Hk a h1 eq_refl Hu) as [Hu' Hk']. split; [done|].
    intros v. rewrite Hm. apply Hk'.
  - split; [done|]. intros v. by rewrite Hm.
Qed.

Lemma framed_catch l {A} (m : M A) (k : exn -> M A) h :
  framed l m h ->
  (forall e h1, m h = (Raise e, h1) -> unshared l h1 -> framed l (k e) h1) ->
  framed l (catch m k) h.
Proof.
  intros [Hu Hm] Hk. unfold framed, catch in *.
  destruct (m h) as [[a|e] h1] eqn:E; simpl in *.
  - split; [done|]. intros v. by rewrite Hm.
  - destruct (Hk e h1 eq_refl Hu) as [Hu' Hk']. split; [done|].
    intros v. rewrite Hm. apply Hk'.
Qed.

Lemma framed_unshared l {A} (m : M A) h : framed l m h -> unshared l (snd (m h)).
Proof. by intros [? _]. Qed.

Lemma framed_ret l {A} (a : A) h : unshared l h -> framed l (ret a) h.
Proof. by split. Qed.

Lemma framed_raise l {A} e h : unshared l h -> framed l (raise (A := A) e) h.
Proof. by split. Qed.

Lemma framed_reraise l {A} e (m : M A) h :
  framed l m h -> framed l (reraise_as e m) h.
Proof.
  intros Hm. apply framed_catch; [done|]. intros e0 h1 E Hu.
  by apply framed_raise.
Qed.

Lemma framed_gets l {A} (f : handler -> A) h :
  unshared l h -> (forall v, f (caller_writes l v h) = f h) -> framed l (gets f) h.
Proof. intros Hu Hf. split; [done|]. intros v. unfold gets. by rewrite Hf. Qed.

Lemma framed_modify l (f : handler -> handler) h :
  unshared l (f h) -> (forall v, f (caller_writes l v h) = caller_writes l v (f h)) ->
  framed l (modify f) h.
Proof. intros Hu Hf. split; [done|]. intros v. unfold modify. by rewrite Hf. Qed.

Lemma alloc_ok x h l0 h' :
  alloc x h = (Ok l0, h') ->
  l0 = next_object h /\
  h' = with_objects (<[l0 := x]> (objects h)) (Pos.succ l0) h.
Proof. unfold alloc. intros H; inversion H; subst. done. Qed.

Lemma framed_alloc l x h : unshared l h -> framed l (alloc x) h.
Proof.
  intros (Hl & Hs & Hu). split.
  - split; [simpl; lia | done].
  - intros v. unfold alloc, caller_writes, with_objects. simpl.
    f_equal. f_equal. apply insert_insert_ne. lia.
Qed.

Lemma framed_load l l0 h : unshared l h -> l0 <> l -> framed l (load l0) h.
Proof.
  intros Hu Hne. unfold framed, load. simpl.
  setoid_rewrite lookup_insert_ne; [|done].
  destruct (objects h !! l0); simpl; split; done.
Qed.

Lemma framed_store l l0 x h : unshared l h -> l0 <> l -> framed l (store l0 x) h.
Proof.
  intros Hu Hne. apply framed_modify; [done|].
  intros v. unfold caller_writes, with_objects. simpl. f_equal.
  by apply insert_insert_ne.
Qed.

Lemma framed_backend_call l c h : unshared l h -> framed l (backend_call c) h.
Proof.
  intros Hu. unfold framed, backend_call. simpl.
  destruct (nth _ (faults (_db h)) false); simpl; split; done.
Qed.

Lemma cached_ok c k h l0 h' :
  cached c k h = (Ok l0, h') -> h' = h /\ buffer_of c h !! k = Some l0.
Proof.
  unfold cached. destruct (buffer_of c h !! k) as [l1|]; [|discriminate].
  intros H; inversion H; subst. done.
Qed.

Lemma unshared_lookup l c k h l0 :
  unshared l h -> buffer_of c h !! k = Some l0 -> l0 <> l.
Proof.
  intros (_ & Hs & Hu) Hk.
  destruct c; simpl in Hk;
    [apply (map_Forall_lookup_1 _ _ _ _ Hs Hk) | apply (map_Forall_lookup_1 _ _ _ _ Hu Hk)].
Qed.

Lemma framed_cached l c k h : unshared l h -> framed l (cached c k) h.
Proof.
  intros Hu. unfold framed, cached.
  assert (forall v, buffer_of c (caller_writes l v h) = buffer_of c h) as Hb
    by (by destruct c).
  setoid_rewrite Hb.
  destruct (buffer_of c h !! k); simpl; split; done.
Qed.

Lemma unshared_with_db l b h : unshared l h -> unshared l (with_db b h).
Proof. done. Qed.

Lemma unshared_with_last_access l la h :
  unshared l h -> unshared l (with_last_access la h).
Proof. done. Qed.

Lemma unshared_file l c k l0 h :
  unshared l h -> l0 <> l ->
  unshared l (with_buffer c (<[k := l0]> (buffer_of c h)) h).
Proof.
  intros (Hl & Hs & Hu) Hne.
  destruct c; (split; [done|]); simpl; split; try done;
    by apply map_Forall_insert_2.
Qed.

Lemma framed_find_one l c f h : unshared l h -> framed l (find_one c f) h.
Proof.
  intros Hu. unfold find_one.
  apply framed_bind; [by apply framed_backend_call|]. intros [] h1 _ Hu1.
  by apply framed_gets.
Qed.

Lemma framed_insert_one l c doc h : unshared l h -> framed l (insert_one c doc) h.
Proof.
  intros Hu. unfold insert_one.
  apply framed_bind; [by apply framed_backend_call|]. intros [] h1 _ Hu1.
  destruct (doc_id doc); [|by apply framed_raise].
  apply framed_bind; [by apply framed_gets|]. intros ds h2 _ Hu2.
  destruct (existsb _ ds); [by apply framed_raise|].
  by apply framed_modify.
Qed.

Lemma framed_load_document l c k fresh now h :
  unshared l h -> framed l (load_document c k fresh now) h.
Proof.
  intros Hu. unfold load_document.
  apply framed_bind; [by apply framed_find_one|]. intros found h1 _ Hu1.
  apply framed_bind.
  { assert (framed l (reraise_as ConnectionError (insert_one c fresh) ;; ret fresh) h1).
    { apply framed_bind; [by apply framed_reraise, framed_insert_one|].
      intros; by apply framed_ret. }
    destruct found as [doc|]; [|done].
    destruct (truthy doc); [by apply framed_ret | done]. }
  intros doc h2 _ Hu2.
  apply framed_bind; [by apply framed_alloc|]. intros l0 h3 E3 Hu3.
  apply alloc_ok in E3 as [-> ->].
  assert (next_object h2 <> l) as Hne by (destruct Hu2 as [? _]; lia).
  apply framed_bind.
  { apply framed_modify; [by apply unshared_file | by destruct c]. }
  intros [] h4 _ Hu4. by apply framed_modify.
Qed.

Lemma framed_deref l r h :
  unshared l h ->
  match r with Whole l0 | Field l0 _ => l0 <> l end ->
  framed l (deref r) h.
Proof.
  intros Hu Hne. destruct r as [l0|l0 t]; simpl; [by apply framed_load|].
  apply framed_bind; [by apply framed_load|]. intros o h1 _ Hu1.
  destruct o; try by apply framed_raise.
  destruct (dict_get t kvs); [by apply framed_ret | by apply framed_raise].
Qed.

Lemma framed_deepcopy l r h :
  unshared l h ->
  match r with Whole l0 | Field l0 _ => l0 <> l end ->
  framed l (deepcopy r) h.
Proof.
  intros Hu Hne. unfold deepcopy.
  apply framed_bind; [by apply framed_deref|]. intros x h1 _ Hu1.
  apply framed_bind; [by apply framed_alloc|]. intros l1 h2 _ Hu2.
  by apply framed_ret.
Qed.

Lemma select_field_ok l0 d_type h r h' :
  select_field l0 d_type h = (Ok r, h') ->
  match r with Whole l1 | Field l1 _ => l1 = l0 end.
Proof.
  unfold select_field.
  destruct d_type as [t|]; [|by intros [= <- _]].
  destruct (String.eqb t ""); [by intros [= <- _]|].
  destruct (negb _); [done|].
  intros (o & h1 & _ & H)%bind_ok.
  destruct o; try done.
  apply bind_ok in H as ([] & h2 & _ & H). by inversion H.
Qed.

Lemma framed_select_field l l0 d_type h :
  unshared l h -> l0 <> l -> framed l (select_field l0 d_type) h.
Proof.
  intros Hu Hne. unfold select_field.
  destruct d_type as [t|]; [|by apply framed_ret].
  destruct (String.eqb t ""); [by apply framed_ret|].
  destruct (negb _); [by apply framed_raise|].
  apply framed_bind; [by apply framed_load|]. intros o h1 _ Hu1.
  destruct o; try by apply framed_raise.
  apply framed_bind.
  { destruct (dict_mem t kvs); [by apply framed_ret | by apply framed_store]. }
  intros [] h2 _ Hu2. by apply framed_ret.
Qed.

Lemma framed_refresh l c k fresh now (cond : bool) h :
  unshared l h ->
  framed l (if cond then load_document c k fresh now else ret tt) h.
Proof.
  intros Hu. destruct cond; [by apply framed_load_document | by apply framed_ret].
Qed.

Lemma framed_get_settings l k fr now h :
  unshared l h -> framed l (get_settings k fr now) h.
Proof.
  intros Hu. rewrite get_settings_eq. apply framed_reraise.
  apply framed_bind; [by apply framed_gets|]. intros hit h1 _ Hu1.
  apply framed_bind; [by apply framed_refresh|]. intros [] h2 _ Hu2.
  apply framed_bind; [by apply framed_cached|]. intros l0 h3 E Hu3.
  apply cached_ok in E as [-> E].
  apply framed_deepcopy; [done|]. by eapply unshared_lookup.
Qed.

Lemma framed_get_user l k d_type nc fr now h :
  unshared l h -> framed l (get_user k d_type nc fr now) h.
Proof.
  intros Hu. rewrite get_user_eq. apply framed_reraise.
  apply framed_bind; [by apply framed_gets|]. intros hit h1 _ Hu1.
  apply framed_bind; [by apply framed_refresh|]. intros [] h2 _ Hu2.
  apply framed_bind; [by apply framed_cached|]. intros l0 h3 E Hu3.
  apply cached_ok in E as [-> E].
  assert (l0 <> l) as Hne by (by eapply unshared_lookup).
  apply framed_bind; [by apply framed_select_field|]. intros r h4 Er Hu4.
  apply select_field_ok in Er.
  destruct nc; [|by apply framed_ret].
  apply framed_deepcopy; [done|]. by destruct r; subst.
Qed.

(** ** What the phases of a read do *)

Lemma selects_id b v : selects b [("_id", v)] = has_id v.
Proof. reflexivity. Qed.

Lemma has_id_truthy v d : has_id v d = true -> truthy d = true.
Proof.
  unfold has_id, doc_id. destruct d as [| | | | |m]; try done.
  by destruct m.
Qed.

Lemma backend_call_ok cl h u h' :
  backend_call cl h = (Ok u, h') ->
  faulty (List.length (calls (_db h))) (_db h) = false /\
  h' = with_db (with_call cl (_db h)) h.
Proof.
  unfold backend_call, faulty.
  destruct (nth _ (faults (_db h)) false); [done|]. by intros [= _ <-].
Qed.

Lemma backend_call_raise cl h e h' :
  backend_call cl h = (Raise e, h') ->
  faulty (List.length (calls (_db h))) (_db h) = true /\
  h' = with_db (with_call cl (_db h)) h.
Proof.
  unfold backend_call, faulty.
  destruct (nth _ (faults (_db h)) false); [|done]. by intros [= _ <-].
Qed.

Lemma find_one_ok c k h found h' :
  find_one c [("_id", VInt k)] h = (Ok found, h') ->
  faulty (List.length (calls (_db h))) (_db h) = false /\
  h' = with_db (with_call (FindOne c [("_id", VInt k)]) (_db h)) h /\
  found = List.find (has_id (VInt k)) (docs_of c (_db h)).
Proof.
  unfold find_one. intros ([] & h1 & [Hf ->]%backend_call_ok & H)%bind_ok.
  unfold gets in H. inversion H; subst. repeat split; try done; by destruct c.
Qed.

Lemma insert_one_ok c doc h u h' :
  insert_one c doc h = (Ok u, h') ->
  faulty (List.length (calls (_db h))) (_db h) = false /\
  (exists v, doc_id doc = Some v /\
     existsb (has_id v) (docs_of c (_db h)) = false) /\
  h' = with_db (with_docs c (docs_of c (_db h) ++ [doc])
                  (with_call (InsertOne c doc) (_db h))) h.
Proof.
  unfold insert_one. intros ([] & h1 & [Hf ->]%backend_call_ok & H)%bind_ok.
  destruct (doc_id doc) as [v|]; [|done].
  apply bind_ok in H as (ds & h2 & E & H). unfold gets in E.
  inversion E; subst; clear E.
  destruct (existsb _ _) eqn:Hex; [done|]. unfold modify in H.
  inversion H; subst; clear H.
  split; [done|]. split.
  - exists v. split; [done|]. by destruct c.
  - by destruct h, c.
Qed.

Lemma deepcopy_ok r h r' h' :
  deepcopy r h = (Ok r', h') ->
  exists x, value_of r h = Some x /\
    r' = Whole (next_object h) /\
    h' = with_objects (<[next_object h := x]> (objects h))
           (Pos.succ (next_object h)) h.
Proof.
  unfold deepcopy, value_of. intros (x & h1 & E & H)%bind_ok.
  assert (h1 = h) as ->.
  { destruct r; simpl in E; unfold load in E; run;
      repeat (case_match; simplify_eq/=); done. }
  rewrite E. apply bind_ok in H as (l & h2 & [-> ->]%alloc_ok & H).
  inversion H; subst. by exists x.
Qed.

Lemma load_document_ok c k fresh now h u h' :
  load_document c k fresh now h = (Ok u, h') ->
  exists doc b,
    h' = with_last_access (la_set k now (_last_access h))
           (with_buffer c (<[k := next_object h]> (buffer_of c h))
              (with_objects (<[next_object h := doc]> (objects h))
                 (Pos.succ (next_object h)) (with_db b h))) /\
    match List.find (has_id (VInt k)) (docs_of c (_db h)) with
    | Some d => doc = d /\ b = with_call (FindOne c [("_id", VInt k)]) (_db h)
    | None =>
        doc = fresh /\
        b = with_docs c (docs_of c (_db h) ++ [fresh])
              (with_call (InsertOne c fresh)
                 (with_call (FindOne c [("_id", VInt k)]) (_db h)))
    end.
Proof.
  unfold load_document.
  intros (found & h1 & (_ & -> & ->)%find_one_ok & H)%bind_ok.
  apply bind_ok in H as (doc & h2 & E & H).
  apply bind_ok in H as (l & h3 & [-> ->]%alloc_ok & H).
  apply bind_ok in H as ([] & h4 & E4 & H).
  unfold modify in E4, H. inversion E4; subst; clear E4.
  inversion H; subst; clear H.
  assert (forall h0, (reraise_as ConnectionError (insert_one c fresh) ;; ret fresh) h0
                     = (Ok doc, h2) ->
          doc = fresh /\
          h2 = with_db (with_docs c (docs_of c (_db h0) ++ [fresh])
                          (with_call (InsertOne c fresh) (_db h0))) h0) as Hins.
  { intros h0 (u0 & h5 & (_ & _ & ->)%reraise_ok%insert_one_ok & H)%bind_ok.
    unfold ret in H. by inversion H. }
  destruct (List.find _ _) as [d|] eqn:Hfind.
  - apply find_some in Hfind as [_ Hid]. rewrite (has_id_truthy _ _ Hid) in E.
    unfold ret in E. inversion E; subst; clear E.
    eexists _, _. split; [|done]. by destruct h, c.
  - apply Hins in E as [-> ->]. eexists _, _. split; [|done].
    by destruct h, c.
Qed.

Lemma dict_get_set_eq k v (m : list (string * value)) :
  dict_get k (dict_set k v m) = Some v.
Proof.
  unfold dict_get, dict_set. induction m as [|[k' v'] m IH]; simpl.
  - by rewrite String.eqb_refl.
  - destruct (String.eqb k k') eqn:E; simpl; by rewrite E.
Qed.

Lemma dict_get_set_ne k k' v (m : list (string * value)) :
  k' <> k -> dict_get k' (dict_set k v m) = dict_get k' m.
Proof.
  intros Hne. unfold dict_get, dict_set. induction m as [|[k0 v0] m IH]; simpl.
  - by apply String.eqb_neq in Hne as ->.
  - destruct (String.eqb k k0) eqn:E; simpl; [|by rewrite IH].
    apply String.eqb_eq in E as <-. by apply String.eqb_neq in Hne as ->.
Qed.

Lemma allocated_refresh c k fresh now (cond : bool) h u h' :
  allocated h ->
  (if cond then load_document c k fresh now else ret tt) h = (Ok u, h') ->
  allocated h'.
Proof.
  intros [Hs Hu] H. destruct cond; [|unfold ret in H; inversion H; subst; by split].
  apply load_document_ok in H as (doc & b & -> & _).
  destruct c; simpl; bounds.
Qed.

Lemma value_of_field l t h :
  value_of (Field l t) h
  = objects h !! l ≫=
      (fun o => match o with VDict m => dict_get t m | _ => None end).
Proof.
  unfold value_of, deref, load. run.
  destruct (objects h !! l) as [o|]; [|done]. simpl.
  destruct o; try done. by destruct (dict_get t kvs).
Qed.

Lemma load_ok l h o h' :
  load l h = (Ok o, h') -> h' = h /\ objects h !! l = Some o.
Proof. unfold load. destruct (objects h !! l); [|done]. by intros [= <- <-]. Qed.

Lemma select_field_spec l0 d_type h r h' :
  select_field l0 d_type h = (Ok r, h') ->
  _settings_buffer h' = _settings_buffer h /\
  _users_buffer h' = _users_buffer h /\
  next_object h' = next_object h /\
  value_of r h' = objects h' !! l0 ≫= selected d_type.
Proof.
  unfold select_field.
  destruct d_type as [t|].
  2: { intros [= <- <-]. repeat split. rewrite value_of_whole.
       by destruct (objects h !! l0). }
  destruct (String.eqb t "") eqn:Et.
  { intros [= <- <-]. repeat split. rewrite value_of_whole. unfold selected.
    rewrite Et. by destruct (objects h !! l0). }
  destruct (negb (dict_mem t _user_base)); [done|].
  intros (o & h1 & [-> Hl]%load_ok & H)%bind_ok.
  destruct o as [| | | | |m]; try done.
  apply bind_ok in H as ([] & h2 & E2 & H). unfold ret in H.
  inversion H; subst; clear H.
  assert (_settings_buffer h' = _settings_buffer h /\
          _users_buffer h' = _users_buffer h /\
          next_object h' = next_object h) as (? & ? & ?).
  { destruct (dict_mem t m); unfold ret, store, modify in E2; by inversion E2. }
  repeat split; try done.
  rewrite value_of_field. unfold selected. by rewrite Et.
Qed.

Lemma get_user_fresh k d_type fr now h r h' :
  allocated h ->
  get_user k d_type true fr now h = (Ok r, h') ->
  exists l, r = Whole l /\ unshared l h' /\ allocated h' /\
    value_of r h' = cached_doc Users k h' ≫= selected d_type.
Proof.
  intros Hall. rewrite get_user_eq.
  intros (hit & h1 & [= _ <-] & H)%reraise_ok%bind_ok.
  apply bind_ok in H as (u & h2 & Hall2%allocated_refresh & H); [|done].
  apply bind_ok in H as (l0 & h3 & [-> Hk]%cached_ok & H).
  apply bind_ok in H as (user & h4 & (Hs & Hu & Hn & Hv)%select_field_spec & H).
  apply deepcopy_ok in H as (x & Hx & -> & ->).
  destruct Hall2 as [Ha Hb]. rewrite <- Hs, <- Hn in Ha. rewrite <- Hu, <- Hn in Hb.
  simpl in Hk. rewrite <- Hu in Hk.
  pose proof (map_Forall_lookup_1 _ _ _ _ Hb Hk) as Hl0. simpl in Hl0.
  exists (next_object h4). split; [done|]. split; [|split].
  - bounds.
  - bounds.
  - rewrite value_of_whole. unfold cached_doc. simpl. rewrite Hk.
    rewrite lookup_insert_eq, lookup_insert_ne by lia. by rewrite <- Hv.
Qed.

(** ** Reads hand out copies: the caller's writes stay outside *)

Lemma cached_doc_frame c k l v h :
  unshared l h -> cached_doc c k (caller_writes l v h) = cached_doc c k h.
Proof.
  intros Hu. unfold cached_doc.
  replace (buffer_of c (caller_writes l v h)) with (buffer_of c h)
    by (by destruct c).
  destruct (buffer_of c h !! k) as [l0|] eqn:Hk; [|done].
  apply lookup_insert_ne. intros ->. by eapply unshared_lookup.
Qed.

Lemma value_of_frame r l v h :
  match r with Whole l1 | Field l1 _ => l1 <> l end ->
  value_of r (caller_writes l v h) = value_of r h.
Proof.
  intros Hne. destruct r as [l1|l1 t];
    rewrite ?value_of_whole, ?value_of_field; simpl;
    by rewrite lookup_insert_ne.
Qed.

Lemma outcome_frame l (m : M pyref) h :
  framed l m h ->
  (forall r h', m h = (Ok r, h') ->
     match r with Whole l1 | Field l1 _ => l1 <> l end) ->
  forall v, outcome m (caller_writes l v h) = outcome m h.
Proof.
  intros [_ Hm] Hr v. unfold outcome. rewrite Hm.
  destruct (m h) as [[r|e] h'] eqn:E; simpl; [|done].
  f_equal. apply value_of_frame. by eapply Hr.
Qed.

Lemma deepcopy_apart l r0 h r h' :
  unshared l h -> deepcopy r0 h = (Ok r, h') ->
  match r with Whole l1 | Field l1 _ => l1 <> l end.
Proof.
  intros [Hl _] (x & _ & -> & _)%deepcopy_ok. lia.
Qed.

Lemma get_settings_apart l k fr now h r h' :
  unshared l h -> get_settings k fr now h = (Ok r, h') ->
  match r with Whole l1 | Field l1 _ => l1 <> l end.
Proof.
  intros Hu. rewrite get_settings_eq.
  intros (hit & h1 & [= _ <-] & H)%reraise_ok%bind_ok.
  apply bind_ok in H as (u & h2 & E2 & H).
  pose proof (framed_unshared _ _ _
                (framed_refresh l Settings k (default_settings k) now
                   (fr || negb hit) _ Hu)) as Hu2.
  rewrite E2 in Hu2. simpl in Hu2.
  apply bind_ok in H as (l0 & h3 & [-> Hk]%cached_ok & H).
  by eapply deepcopy_apart.
Qed.

Lemma get_user_apart l k d_type fr now h r h' :
  unshared l h -> get_user k d_type true fr now h = (Ok r, h') ->
  match r with Whole l1 | Field l1 _ => l1 <> l end.
Proof.
  intros Hu. rewrite get_user_eq.
  intros (hit & h1 & [= _ <-] & H)%reraise_ok%bind_ok.
  apply bind_ok in H as (u & h2 & E2 & H).
  pose proof (framed_unshared _ _ _
                (framed_refresh l Users k (default_user k) now
                   (fr || negb hit) _ Hu)) as Hu2.
  rewrite E2 in Hu2. simpl in Hu2.
  apply bind_ok in H as (l0 & h3 & [-> Hk]%cached_ok & H).
  apply bind_ok in H as (user & h4 & E4 & H).
  assert (l0 <> l) as Hne by (by eapply unshared_lookup).
  pose proof (framed_unshared _ _ _
                (framed_select_field l l0 d_type _ Hu2 Hne)) as Hu4.
  rewrite E4 in Hu4. simpl in Hu4.
  by eapply deepcopy_apart.
Qed.

(** X1: a read with the default copy behaviour ([get_settings], or
    [get_user] with [need_copy=True]) that returns hands out a new
    object, which shows the cached document (or the part of it that
    [d_type] selects) and which no cache holds.  Whatever the caller
    then writes into that object, every cached document of either
    collection stays as it was, and every later read, of any key, shows
    what it would have shown without the write. *)
Theorem reads_return_independent_copies c key d_type fr now h r h' :
  allocated h ->
  get c key d_type fr now h = (Ok r, h') ->
  exists l,
    r = Whole l /\
    value_of r h'
      = cached_doc c key h'
          ≫= selected (match c with Settings => None | Users => d_type end) /\
    forall v,
      (forall c' k',
         cached_doc c' k' (caller_writes l v h') = cached_doc c' k' h') /\
      (forall c' k' d' fr' now',
         outcome (get c' k' d' fr' now') (caller_writes l v h')
           = outcome (get c' k' d' fr' now') h').
Proof.
  intros Hall Hget.
  assert (exists l, r = Whole l /\ unshared l h' /\
            value_of r h' = cached_doc c key h'
              ≫= selected (match c with Settings => None | Users => d_type end))
    as (l & -> & Hun & Hval).
  { destruct c; simpl in Hget.
    - destruct (get_settings_fresh _ _ _ _ _ _ Hall Hget) as (l & -> & Hun & _ & Hv).
      exists l. split; [done | split; [done|]].
      rewrite Hv. by destruct (cached_doc Settings key h').
    - destruct (get_user_fresh _ _ _ _ _ _ _ Hall Hget) as (l & -> & Hun & _ & Hv).
      by exists l. }
  exists l. split; [done | split; [done|]].
  intros v. split.
  - intros c' k'. by apply cached_doc_frame.
  - intros [|] k' d' fr' now'; simpl.
    + apply outcome_frame; [by apply framed_get_settings|].
      intros r h2. by apply get_settings_apart.
    + apply outcome_frame; [by apply framed_get_user|].
      intros r h2. by apply get_user_apart.
Qed.

Lemma reads_return_independent_copies_witness :
  exists l,
    fst (get Settings 7 None false 200 guild7) = Ok (Whole l) /\
    forall v,
      cached_doc Settings 7
        (caller_writes l v (after (get Settings 7 None false 200) guild7))
        = Some (VDict [("_id", VInt 7)]).
Proof.
  assert (allocated guild7) as Hall.
  { unfold allocated. split; apply (bool_decide_unpack _); vm_compute; exact I. }
  destruct (get Settings 7 None false 200 guild7) as [[r|e] h'] eqn:Hget;
    [|vm_compute in Hget; discriminate].
  destruct (reads_return_independent_copies Settings 7 None false 200 guild7 r h'
              Hall Hget) as (l & -> & _ & Hframe).
  exists l. split; [reflexivity|].
  intros v. unfold after. rewrite Hget. simpl.
  rewrite (proj1 (Hframe v) Settings 7).
  vm_compute in Hget. by inversion Hget.
Defined.

(** ** What an update does *)

Lemma la_get_set_eq k t la : la_get k (la_set k t la) = Some t.
Proof.
  unfold la_get, la_set. induction la as [|[k' t'] la IH]; simpl.
  - by rewrite Z.eqb_refl.
  - destruct (k =? k') eqn:E; simpl; by rewrite E.
Qed.

Lemma la_get_set_ne k k' t la :
  k' <> k -> la_get k' (la_set k t la) = la_get k' la.
Proof.
  intros Hne. unfold la_get, la_set. induction la as [|[k0 t0] la IH]; simpl.
  - by apply Z.eqb_neq in Hne as ->.
  - destruct (k =? k0) eqn:E; simpl; [|by rewrite IH].
    apply Z.eqb_eq in E as <-. by apply Z.eqb_neq in Hne as ->.
Qed.

Lemma update_one_ok c f data h n h' :
  update_one c f data h = (Ok n, h') ->
  faulty (List.length (calls (_db h))) (_db h) = false /\
  exists ds,
    update_first (selects (_db h) f) (server_update (_db h) data)
      (docs_of c (_db h)) = Some (ds, n) /\
    h' = with_db (with_docs c ds (with_call (UpdateOne c f data) (_db h))) h.
Proof.
  unfold update_one. intros ([] & h1 & [Hf ->]%backend_call_ok & H)%bind_ok.
  split; [done|].
  apply bind_ok in H as (b & h2 & [= <- <-] & H). simpl in H.
  replace (docs_of c (with_call (UpdateOne c f data) (_db h)))
    with (docs_of c (_db h)) in H by (by destruct c).
  replace (selects (with_call (UpdateOne c f data) (_db h)) f)
    with (selects (_db h) f) in H by done.
  destruct (update_first _ _ _) as [[ds m]|]; [|done].
  apply bind_ok in H as ([] & h3 & [= <-] & [= <- <-]).
  exists ds. split; [done|]. by destruct h, c.
Qed.

Lemma _update_db_raise db cache f data now h e h' :
  _update_db db cache f data now h = (Raise e, h') ->
  e = GenericException /\
  forall k, filter_id f = Some k ->
    _settings_buffer h' !! k = None /\ _users_buffer h' !! k = None.
Proof.
  unfold _update_db, catch.
  match goal with |- context [match ?m h with _ => _ end] =>
    destruct (m h) as [[b|e0] h1] end; [done|].
  destruct (filter_id f) as [k0|]; run; intros [= <- <-].
  - split; [done|]. intros k [= <-]. simpl. by rewrite !lookup_delete_eq.
  - split; [done|]. done.
Qed.

Lemma _update_db_ok db l f data now h b h' :
  _update_db db (Whole l) f data now h = (Ok b, h') ->
  all_valid data = true /\
  exists before doc' n h2,
    objects h !! l = Some before /\
    apply_data data before = (doc', None) /\
    update_one db f data (caller_writes l doc' h) = (Ok n, h2) /\
    b = (0 <? n) /\
    h' = match filter_id f with
         | Some k => with_last_access (la_set k now (_last_access h2)) h2
         | None => h2
         end.
Proof.
  unfold _update_db, catch.
  match goal with |- context [match ?m h with _ => _ end] =>
    destruct (m h) as [[b0|e0] h1] eqn:E end.
  2: { destruct (filter_id f); run; done. }
  intros [= -> ->].
  apply bind_ok in E as ([] & h0 & Ev & E).
  destruct (all_valid data); [|done]. inversion Ev; subst; clear Ev.
  split; [done|].
  apply bind_ok in E as (before & h1 & [-> Hl]%load_ok & E).
  destruct (apply_data data before) as [doc' e] eqn:Ha.
  apply bind_ok in E as ([] & h1 & [= <-] & E).
  apply bind_ok in E as ([] & h1 & Ee & E).
  destruct e as [x|]; [done|]. inversion Ee; subst; clear Ee.
  apply bind_ok in E as (n & h2 & Eu & E).
  apply bind_ok in E as ([] & h3 & El & [= <- <-]).
  exists before, doc', n, h2. repeat split; try done.
  destruct (filter_id f); by inversion El.
Qed.

Lemma get_user_live k fr now h r h1 :
  get_user k None false fr now h = (Ok r, h1) ->
  exists l0, r = Whole l0 /\ _users_buffer h1 !! k = Some l0.
Proof.
  rewrite get_user_eq.
  intros (hit & h0 & [= _ <-] & H)%reraise_ok%bind_ok.
  apply bind_ok in H as (u & h2 & _ & H).
  apply bind_ok in H as (l0 & h3 & [-> Hk]%cached_ok & H).
  apply bind_ok in H as (user & h4 & [= <- <-] & [= <- <-]).
  by exists l0.
Qed.



(** X3: a call of [update_settings] without [upsert] that returns sent the
    operations to the backend, and left the settings cache holding the
    very document it held after the read the call starts with: the
    edits went to the copy that the read handed out. *)
Theorem update_settings_never_edits_the_cache k data t1 t2 h b h' :
  allocated h ->
  update_settings k data false t1 t2 h = (Ok b, h') ->
  let h1 := after (read_for_update Settings k t1) h in
  exists before,
    cached_doc Settings k h1 = Some before /\
    cached_doc Settings k h' = Some before /\
    calls (_db h') = calls (_db h1) ++ [UpdateOne Settings [("_id", VInt k)] data].
Proof.
  intros Hall. unfold update_settings, after, read_for_update.
  intros (r & h1 & Eg & H)%reraise_ok%bind_ok. rewrite Eg. simpl.
  destruct (get_settings_fresh _ _ _ _ _ _ Hall Eg) as (l & -> & Hun & _ & Hv).
  apply bind_ok in H as (result & h2 & Eu & H).
  rewrite andb_false_r in H. unfold ret in H. inversion H; subst; clear H.
  apply _update_db_ok in Eu
    as (_ & before & doc' & n & h3 & Hl & Ha & (_ & ds & _ & ->)%update_one_ok & _ & ->).
  rewrite value_of_whole, Hl in Hv. exists before.
  split; [done|]. split; [|done].
  rewrite Hv.
  exact (cached_doc_frame Settings k l doc' h1 Hun).
Qed.

Lemma update_settings_never_edits_the_cache_witness :
  exists b h',
    update_settings 7 set_prefix false 101 102 guild7 = (Ok b, h') /\
    exists before,
      cached_doc Settings 7 (after (read_for_update Settings 7 101) guild7)
        = Some before /\
      cached_doc Settings 7 h' = Some before /\
      calls (_db h')
        = calls (_db (after (read_for_update Settings 7 101) guild7))
            ++ [UpdateOne Settings [("_id", VInt 7)] set_prefix].
Proof.
  assert (allocated guild7) as Hall.
  { unfold allocated. split; apply (bool_decide_unpack _); vm_compute; exact I. }
  destruct (update_settings 7 set_prefix false 101 102 guild7)
    as [[b|e] h'] eqn:E; [|vm_compute in E; discriminate].
  exists b, h'. split; [reflexivity|].
  exact (update_settings_never_edits_the_cache 7 _ 101 102 guild7 b h' Hall E).
Defined.

(** X4: when the read an update starts with has returned and the update
    (without [upsert]) then fails, for whatever reason, the caller gets
    a [ConnectionError] and the id is in neither cache: a failed update
    of user [k] also drops the cached settings of guild [k], and the
    other way round. *)
Theorem failed_update_evicts_the_id_from_both_caches c k data t1 t2 h r h1 e h' :
  read_for_update c k t1 h = (Ok r, h1) ->
  update c k data false t1 t2 h = (Raise e, h') ->
  e = ConnectionError /\
  _settings_buffer h' !! k = None /\ _users_buffer h' !! k = None.
Proof.
  intros Eg H.
  assert (exists e0 h2 db cache,
            _update_db db cache [("_id", VInt k)] data t2 h2 = (Raise e0, h') /\
            e = ConnectionError) as (e0 & h2 & db & cache & Eu & ->).
  { destruct c; simpl in Eg, H;
      unfold update_settings, update_user in H;
      apply reraise_raise in H as (-> & e0 & H);
      (apply bind_raise in H as [H | (a & h2 & _ & H)]; [congruence|]);
      (apply bind_raise in H as [H | (res & h3 & _ & H)];
         [by eexists _, _, _, _ | by rewrite andb_false_r in H]). }
  split; [done|].
  apply _update_db_raise in Eu as [_ Hev]. by apply Hev.
Qed.

Lemma failed_update_evicts_the_id_from_both_caches_witness :
  in_buffer Settings 5 both5 = true /\
  exists e h',
    update Users 5 inc_history false 30 31 both5 = (Raise e, h') /\
    e = ConnectionError /\
    _settings_buffer h' !! 5 = None /\ _users_buffer h' !! 5 = None.
Proof.
  split; [by vm_compute|].
  destruct (read_for_update Users 5 30 both5) as [[r|e0] h1] eqn:Eg;
    [|vm_compute in Eg; discriminate].
  destruct (update Users 5 inc_history false 30 31 both5)
    as [[b|e] h'] eqn:E; [vm_compute in E; discriminate|].
  exists e, h'. split; [reflexivity|].
  exact (failed_update_evicts_the_id_from_both_caches
           Users 5 inc_history 30 31 both5 r h1 e h' Eg E).
Defined.

(** X5: an update that names an operator other than [$set], [$unset],
    [$inc], [$push] and [$pull] is refused before anything is edited or
    sent: once the read it starts with has returned, the call raises
    [ConnectionError], and the state it leaves differs from the state
    after that read only in that the id is in neither cache. *)
Theorem unknown_operator_is_refused_before_any_edit c k data upsert t1 t2 h r h1 :
  all_valid data = false ->
  read_for_update c k t1 h = (Ok r, h1) ->
  update c k data upsert t1 t2 h = (Raise ConnectionError, evicted k h1).
Proof.
  intros Hv Eg.
  destruct c; simpl in *;
    unfold update_settings, update_user, reraise_as, catch;
    unfold bind at 1; rewrite Eg;
    unfold bind at 1; unfold _update_db, catch;
    unfold bind at 1; rewrite Hv; reflexivity.
Qed.

Lemma unknown_operator_is_refused_before_any_edit_witness :
  exists r h1,
    read_for_update Settings 7 101 guild7 = (Ok r, h1) /\
    update Settings 7 rename_prefix true 101 102 guild7
      = (Raise ConnectionError, evicted 7 h1).
Proof.
  destruct (read_for_update Settings 7 101 guild7) as [[r|e0] h1] eqn:Eg;
    [|vm_compute in Eg; discriminate].
  exists r, h1. split; [reflexivity|].
  apply (unknown_operator_is_refused_before_any_edit
           Settings 7 rename_prefix true 101 102 guild7 r h1);
    [reflexivity | exact Eg].
Defined.

(** ** Deleting a user *)

Lemma delete_first_spec sel docs :
  delete_first sel docs
  = if existsb sel docs then (fst (delete_first sel docs), 1) else (docs, 0).
Proof.
  induction docs as [|d rest IH]; simpl; [done|].
  destruct (sel d); simpl; [done|].
  rewrite IH. destruct (existsb sel rest); simpl; [|done].
  by destruct (delete_first sel rest).
Qed.

(** X6: [delete_user] sends one [delete_one] for the primary key.  If that
    call fails the caller gets a [ConnectionError] and nothing else has
    changed.  Otherwise the call returns whether the backend held a
    document with that id: if it did, the first such document is gone
    from the backend, and so are the id's entry in the users cache and
    its timestamp; if it did not, the users cache and the timestamps
    are as they were, a cached entry for the id included.  The settings
    cache is never touched. *)
Theorem delete_user_outcome k h :
  let held := existsb (has_id (VInt k)) (users_docs (_db h)) in
  let failed := faulty (List.length (calls (_db h))) (_db h) in
  exists h',
    delete_user k h = ((if failed then Raise ConnectionError else Ok held), h') /\
    calls (_db h') = calls (_db h) ++ [DeleteOne Users [("_id", VInt k)]] /\
    _settings_buffer h' = _settings_buffer h /\
    objects h' = objects h /\
    if negb failed && held then
      users_docs (_db h')
        = fst (delete_first (has_id (VInt k)) (users_docs (_db h))) /\
      _users_buffer h' = delete k (_users_buffer h) /\
      _last_access h' = la_remove k (_last_access h)
    else
      users_docs (_db h') = users_docs (_db h) /\
      _users_buffer h' = _users_buffer h /\
      _last_access h' = _last_access h.
Proof.
  simpl. unfold delete_user, delete_one, backend_call, faulty. run.
  destruct (nth _ (faults (_db h)) false); simpl.
  { eexists. split; [reflexivity|]. by simpl. }
  change (selects _ [("_id", VInt k)]) with (has_id (VInt k)).
  rewrite (delete_first_spec (has_id (VInt k))).
  destruct (existsb _ _); simpl; (eexists; split; [reflexivity|]); by simpl.
Qed.

(** ** The maintenance sweep *)

Lemma swept_refl h : swept h h.
Proof. by repeat split. Qed.

Lemma swept_trans h1 h2 h3 : swept h1 h2 -> swept h2 h3 -> swept h1 h3.
Proof.
  intros (? & ? & ? & ? & ? & ? & ? & ?) (? & ? & ? & ? & ? & ? & ? & ?).
  repeat split; try congruence; by etrans.
Qed.

Lemma la_remove_sublist k (la : list (Z * Z)) : sublist (la_remove k la) la.
Proof.
  unfold la_remove. induction la as [|[k' t'] la IH]; simpl; [done|].
  destruct (k =? k'); [by apply sublist_cons | by apply sublist_skip].
Qed.

Lemma del_settings_ok k h u h' :
  del_settings k h = (Ok u, h') ->
  is_Some (_settings_buffer h !! k) /\
  h' = with_settings_buffer (delete k (_settings_buffer h)) h.
Proof.
  unfold del_settings. destruct (_settings_buffer h !! k) eqn:E; [|done].
  by intros [= _ <-].
Qed.

Lemma del_settings_raise k h e h' : del_settings k h = (Raise e, h') -> h' = h.
Proof.
  unfold del_settings. destruct (_settings_buffer h !! k); [done|].
  by intros [= _ <-].
Qed.

Lemma del_last_access_ok k h u h' :
  del_last_access k h = (Ok u, h') ->
  h' = with_last_access (la_remove k (_last_access h)) h.
Proof.
  unfold del_last_access. destruct (la_get k (_last_access h)); [|done].
  by intros [= _ <-].
Qed.

Lemma del_last_access_raise k h e h' : del_last_access k h = (Raise e, h') -> h' = h.
Proof.
  unfold del_last_access. destruct (la_get k (_last_access h)); [done|].
  by intros [= _ <-].
Qed.

(** One round of either loop: [del _settings_buffer[k]; del _last_access[k]]. *)
Lemma del_both_swept k h r h' :
  (del_settings k ;; del_last_access k) h = (r, h') -> swept h h'.
Proof.
  unfold bind. destruct (del_settings k h) as [[u|e] h1] eqn:E1.
  - apply del_settings_ok in E1 as [_ ->].
    destruct (del_last_access k _) as [[u2|e2] h2] eqn:E2; intros [= <- <-].
    + apply del_last_access_ok in E2 as ->. repeat split; simpl; try done.
      * apply delete_subseteq.
      * apply la_remove_sublist.
    + apply del_last_access_raise in E2 as ->. repeat split; simpl; try done.
      apply delete_subseteq.
  - apply del_settings_raise in E1 as ->. intros [= <- <-]. apply swept_refl.
Qed.

Lemma remove_expired_swept ids h r h' :
  remove_expired ids h = (r, h') -> swept h h'.
Proof.
  revert h. induction ids as [|k ids IH]; intros h; simpl.
  - intros [= <- <-]. apply swept_refl.
  - unfold bind at 1.
    destruct (del_settings k h) as [[u|e] h1] eqn:E1.
    2: { apply del_settings_raise in E1 as ->. intros [= <- <-]. apply swept_refl. }
    unfold bind at 1.
    destruct (del_last_access k h1) as [[u2|e2] h2] eqn:E2.
    + intros H. apply IH in H. eapply swept_trans; [|exact H].
      apply (del_both_swept k h (Ok u2) h2). unfold bind. by rewrite E1, E2.
    + intros [= <- <-].
      apply (del_both_swept k h (Raise e2) h2). unfold bind. by rewrite E1, E2.
Qed.

Lemma evict_oldest_finishes fuel h :
  (size (_settings_buffer h) < fuel)%nat ->
  exists r h', evict_oldest fuel h = Some (r, h') /\ swept h h'.
Proof.
  revert h. induction fuel as [|fuel IH]; intros h Hsize; [lia|].
  simpl. destruct (_ >? _);
    [|eexists _, _; split; [reflexivity | apply swept_refl]].
  destruct (oldest (_last_access h)) as [[k t]|];
    [|eexists _, _; split; [reflexivity | apply swept_refl]].
  destruct ((del_settings k ;; del_last_access k) h) as [[u|e] h1] eqn:E.
  - pose proof (del_both_swept _ _ _ _ E) as Hsw.
    apply bind_ok in E as ([] & h0 & [[l Hl] ->]%del_settings_ok & ->%del_last_access_ok).
    destruct (IH (with_last_access
                    (la_remove k (_last_access
                       (with_settings_buffer (delete k (_settings_buffer h)) h)))
                    (with_settings_buffer (delete k (_settings_buffer h)) h)))
      as (r & h' & Hr & Hsw').
    { simpl. rewrite map_size_delete, Hl. simpl.
      assert (size (_settings_buffer h) <> 0%nat) as Hne.
      { apply map_size_non_empty_iff. intros Hem. by rewrite Hem in Hl. }
      lia. }
    exists r, h'. split; [done|]. by eapply swept_trans.
  - eexists _, _. split; [reflexivity|]. by eapply del_both_swept.
Qed.

(** X7: a sweep always comes to an end, and it only ever takes entries out
    of the settings cache and out of the timestamps: the users cache,
    the cached objects and the backend are as they were, and every
    settings entry still cached was cached before, with the object it
    had. *)
Theorem cleanup_cache_finishes current_time h :
  exists h', cleanup_cache current_time h = Some h' /\ swept h h'.
Proof.
  unfold cleanup_cache.
  destruct (remove_expired _ h) as [[u|e] h1] eqn:E1;
    apply remove_expired_swept in E1.
  - destruct (evict_oldest_finishes (S (size (_settings_buffer h1))) h1)
      as (r & h' & -> & Hsw); [lia|].
    exists h'. split; [done|]. by eapply swept_trans.
  - by exists h1.
Qed.

Lemma la_get_elem k t (la : list (Z * Z)) :
  la_get k la = Some t -> (k, t) ∈ la.
Proof.
  unfold la_get. induction la as [|[k' t'] la IH]; simpl; [done|].
  destruct (k =? k') eqn:E.
  - apply Z.eqb_eq in E as <-. intros [= <-]. apply elem_of_cons. by left.
  - intros H. apply elem_of_cons. right. by apply IH.
Qed.

Lemma elem_la_get k t (la : list (Z * Z)) :
  NoDup (map fst la) -> (k, t) ∈ la -> la_get k la = Some t.
Proof.
  unfold la_get. induction la as [|[k' t'] la IH]; simpl.
  - by intros _ ?%elem_of_nil.
  - intros [Hk Hnd]%NoDup_cons [[= <- <-]|Hin]%elem_of_cons.
    + by rewrite Z.eqb_refl.
    + destruct (k =? k') eqn:E; [|by apply IH].
      apply Z.eqb_eq in E as <-. exfalso. apply Hk.
      apply list_elem_of_fmap. by exists (k, t).
Qed.

Lemma la_get_remove_ne k k' (la : list (Z * Z)) :
  k' <> k -> la_get k' (la_remove k la) = la_get k' la.
Proof.
  intros Hne. unfold la_get, la_remove.
  induction la as [|[k0 t0] la IH]; simpl; [done|].
  destruct (k =? k0) eqn:E; simpl; [|by rewrite IH].
  apply Z.eqb_eq in E as <-. by apply Z.eqb_neq in Hne as ->.
Qed.

Lemma elem_expired_settings now h k :
  k ∈ expired_settings now h <->
  exists t, (k, t) ∈ _last_access h /\ now - t > _CACHE_TTL h /\
    is_Some (_settings_buffer h !! k).
Proof.
  unfold expired_settings. rewrite list_elem_of_fmap. split.
  - intros ([k' t] & -> & Hin). apply list_elem_of_In, filter_In in Hin as [Hin HP].
    apply andb_prop in HP as [Ht Hb]. simpl in *.
    exists t. split; [by apply list_elem_of_In|]. split; [lia|].
    by apply bool_decide_eq_true in Hb.
  - intros (t & Hin & Ht & Hb). exists (k, t). split; [done|].
    apply list_elem_of_In, filter_In. split; [by apply list_elem_of_In|].
    simpl. apply andb_true_intro. split; [lia|].
    by apply bool_decide_eq_true.
Qed.

Lemma expired_settings_nodup now h :
  one_timestamp_per_id h -> NoDup (expired_settings now h).
Proof.
  unfold one_timestamp_per_id, expired_settings.
  generalize (fun entry : Z * Z =>
                (now - snd entry >? _CACHE_TTL h) && in_buffer Settings (fst entry) h).
  intros P. induction (_last_access h) as [|[k t] la IH]; simpl; [done|].
  intros [Hk Hnd]%NoDup_cons. destruct (P (k, t)); simpl; [|by apply IH].
  apply NoDup_cons. split; [|by apply IH].
  intros ([k' t'] & -> & Hin%list_elem_of_In%filter_In)%list_elem_of_fmap.
  apply Hk. apply list_elem_of_fmap. exists (k', t'). split; [done|].
  apply list_elem_of_In. tauto.
Qed.

Lemma remove_expired_ok ids h :
  NoDup ids ->
  (forall k, k ∈ ids ->
     is_Some (_settings_buffer h !! k) /\ is_Some (la_get k (_last_access h))) ->
  exists h',
    remove_expired ids h = (Ok tt, h') /\
    (forall k, _settings_buffer h' !! k
               = if decide (k ∈ ids) then None else _settings_buffer h !! k) /\
    (forall k, k ∉ ids -> la_get k (_last_access h') = la_get k (_last_access h)).
Proof.
  revert h. induction ids as [|id rest IH]; intros h Hnd Hin.
  - exists h. split; [done|]. split; [|done].
    intros k. by rewrite decide_False by apply not_elem_of_nil.
  - apply NoDup_cons in Hnd as [Hid Hnd].
    destruct (Hin id) as [[l Hl] [t Ht]]; [apply elem_of_cons; by left|].
    simpl. unfold bind at 1. unfold del_settings at 1. rewrite Hl.
    unfold bind at 1. unfold del_last_access at 1. simpl. rewrite Ht.
    match goal with |- context [remove_expired rest ?h1] =>
      destruct (IH h1 Hnd) as (h' & -> & Hb & Hla) end.
    { intros k Hk. assert (k <> id) by (by intros ->).
      simpl. rewrite lookup_delete_ne by done. rewrite la_get_remove_ne by done.
      apply Hin, elem_of_cons. by right. }
    exists h'. split; [done|]. simpl in *. split.
    + intros k. rewrite Hb. destruct (decide (k = id)) as [->|Hne].
      * rewrite decide_False by done. rewrite lookup_delete_eq.
        rewrite decide_True; [done | apply elem_of_cons; by left].
      * rewrite lookup_delete_ne by done.
        destruct (decide (k ∈ rest)).
        -- rewrite decide_True; [done | apply elem_of_cons; by right].
        -- rewrite decide_False; [done|]. intros [?|?]%elem_of_cons; done.
    + intros k Hk%not_elem_of_cons. destruct Hk as [Hne Hk].
      rewrite Hla by done. by apply la_get_remove_ne.
Qed.

(** X8: with one timestamp per id, a sweep takes out of the settings cache
    every entry whose timestamp is older than the TTL; and when the
    settings cache was within its maximum size to begin with, that is
    all it does: an entry whose timestamp is not older than the TTL, or
    that has no timestamp, stays, with its timestamp. *)
Theorem sweep_expires_settings_entries now h h' :
  one_timestamp_per_id h ->
  cleanup_cache now h = Some h' ->
  (forall k, expired now k h -> _settings_buffer h' !! k = None) /\
  (Z.of_nat (size (_settings_buffer h)) <= _MAX_CACHE_SIZE h ->
   forall k, ~ expired now k h ->
     _settings_buffer h' !! k = _settings_buffer h !! k /\
     la_get k (_last_access h') = la_get k (_last_access h)).
Proof.
  intros Hone Hsweep.
  assert (forall k, k ∈ expired_settings now h <->
            expired now k h /\ is_Some (_settings_buffer h !! k)) as Hmem.
  { intros k. rewrite elem_expired_settings. unfold expired. split.
    - intros (t & Hin & Ht & Hb). split; [|done]. exists t.
      split; [by apply elem_la_get | done].
    - intros [(t & Hget & Ht) Hb]. exists t. by split; [apply la_get_elem|]. }
  destruct (remove_expired_ok (expired_settings now h) h)
    as (h1 & E1 & Hb1 & Hla1).
  { by apply expired_settings_nodup. }
  { intros k [(t & Hget & _) Hb]%Hmem. split; [done | by exists t]. }
  pose proof (remove_expired_swept _ _ _ _ E1)
    as (Httl & Hmax & _ & _ & _ & _ & Hsub1 & _).
  unfold cleanup_cache in Hsweep. rewrite E1 in Hsweep.
  destruct (evict_oldest_finishes (S (size (_settings_buffer h1))) h1)
    as (r & h2 & E2 & Hsw2); [lia|].
  rewrite E2 in Hsweep. inversion Hsweep; subst h2; clear Hsweep.
  split.
  - intros k Hex.
    eapply lookup_weaken_None; [|by apply Hsw2].
    rewrite Hb1. destruct (decide _) as [|Hn]; [done|].
    destruct (_settings_buffer h !! k) eqn:Hk; [|done].
    exfalso. apply Hn, Hmem. by split.
  - intros Hsize k Hnex.
    assert (h' = h1) as ->.
    { simpl in E2.
      assert ((Z.of_nat (size (_settings_buffer h1)) >? _MAX_CACHE_SIZE h1) = false)
        as Hle.
      { apply map_subseteq_size in Hsub1. rewrite Hmax. lia. }
      rewrite Hle in E2. by inversion E2. }
    assert (k ∉ expired_settings now h) as Hk by (intros [? _]%Hmem; done).
    split; [|by apply Hla1].
    rewrite Hb1. by rewrite decide_False.
Qed.

Lemma sweep_expires_settings_entries_witness :
  exists h',
    cleanup_cache 1000 both5 = Some h' /\
    _settings_buffer h' !! 5 = None /\
    forall k, ~ expired 1000 k both5 ->
      _settings_buffer h' !! k = _settings_buffer both5 !! k.
Proof.
  assert (one_timestamp_per_id both5) as Hone.
  { unfold one_timestamp_per_id. apply (bool_decide_unpack _). vm_compute. exact I. }
  destruct (cleanup_cache 1000 both5) as [h'|] eqn:E;
    [|vm_compute in E; discriminate].
  destruct (sweep_expires_settings_entries 1000 both5 h' Hone E) as [Hexp Hkeep].
  exists h'. split; [reflexivity|]. split.
  - apply Hexp. exists 20. split; [reflexivity | reflexivity].
  - intros k Hk. apply Hkeep; [|done]. vm_compute. discriminate.
Defined.

Lemma la_get_None k (la : list (Z * Z)) :
  la_get k la = None <-> k ∉ map fst la.
Proof.
  unfold la_get. induction la as [|[k' t'] la IH]; simpl.
  - split; [intros _; apply not_elem_of_nil | done].
  - rewrite not_elem_of_cons. destruct (k =? k') eqn:E.
    + apply Z.eqb_eq in E. split; [done | by intros [? _]].
    + apply Z.eqb_neq in E. rewrite IH. tauto.
Qed.

Lemma la_get_sublist_None k (la la' : list (Z * Z)) :
  sublist la' la -> la_get k la = None -> la_get k la' = None.
Proof.
  rewrite !la_get_None. intros Hsub Hk Hin. apply Hk.
  eapply elem_of_sublist; [exact Hin|]. by apply fmap_sublist.
Qed.

Lemma la_get_remove_eq k (la : list (Z * Z)) :
  NoDup (map fst la) -> la_get k (la_remove k la) = None.
Proof.
  intros Hnd. apply la_get_None. unfold la_remove.
  induction la as [|[k' t'] la IH]; simpl; [apply not_elem_of_nil|].
  simpl in Hnd. apply NoDup_cons in Hnd as [Hk Hnd].
  destruct (k =? k') eqn:E.
  - by apply Z.eqb_eq in E as <-.
  - apply Z.eqb_neq in E. simpl. apply not_elem_of_cons. split; [done | by apply IH].
Qed.

Lemma la_remove_nodup k (la : list (Z * Z)) :
  NoDup (map fst la) -> NoDup (map fst (la_remove k la)).
Proof.
  intros Hnd. eapply sublist_NoDup; [exact Hnd|].
  apply fmap_sublist, la_remove_sublist.
Qed.

Lemma oldest_spec (la : list (Z * Z)) :
  match oldest la with
  | Some (k, t) => (k, t) ∈ la /\ forall k' t', (k', t') ∈ la -> t <= t'
  | None => la = []
  end.
Proof.
  induction la as [|[k0 t0] la IH]; simpl; [done|].
  destruct (oldest la) as [[k t]|].
  - destruct IH as [Hin Hmin]. simpl. destruct (t <? t0) eqn:E.
    + split; [by apply list_elem_of_further|].
      intros k' t' [[= -> ->]|H]%elem_of_cons; [lia | by eapply Hmin].
    + split; [apply list_elem_of_here|].
      intros k' t' [[= -> ->]|H]%elem_of_cons; [lia|].
      apply Hmin in H. lia.
  - subst la. split; [apply list_elem_of_here|].
    intros k' t' [[= -> ->]|H]%elem_of_cons; [lia|]. by apply elem_of_nil in H.
Qed.

Lemma remove_expired_timestamps ids h h' :
  one_timestamp_per_id h ->
  remove_expired ids h = (Ok tt, h') ->
  one_timestamp_per_id h' /\
  forall k, k ∈ ids -> la_get k (_last_access h') = None.
Proof.
  unfold one_timestamp_per_id.
  revert h. induction ids as [|id rest IH]; intros h Hnd; simpl.
  - intros [= <-]. split; [done|]. by intros k ?%elem_of_nil.
  - intros ([] & h1 & [_ ->]%del_settings_ok & H)%bind_ok.
    apply bind_ok in H as ([] & h2 & ->%del_last_access_ok & H).
    pose proof (remove_expired_swept _ _ _ _ H) as Hsw.
    destruct Hsw as (_ & _ & _ & _ & _ & _ & _ & Hsub).
    apply IH in H as [Hnd' Hnone]; [|by apply la_remove_nodup].
    split; [done|].
    intros k [->|Hk]%elem_of_cons; [|by apply Hnone].
    eapply la_get_sublist_None; [exact Hsub|]. simpl.
    by apply la_get_remove_eq.
Qed.

Lemma evict_oldest_trims fuel h :
  one_timestamp_per_id h -> settings_tracked h -> 0 <= _MAX_CACHE_SIZE h ->
  (size (_settings_buffer h) < fuel)%nat ->
  exists h',
    evict_oldest fuel h = Some (Ok tt, h') /\
    Z.of_nat (size (_settings_buffer h')) <= _MAX_CACHE_SIZE h /\
    settings_tracked h' /\
    (forall k, is_Some (_settings_buffer h' !! k) ->
       la_get k (_last_access h') = la_get k (_last_access h)) /\
    (forall k k' t t',
       is_Some (_settings_buffer h' !! k) -> _settings_buffer h' !! k' = None ->
       la_get k (_last_access h) = Some t -> la_get k' (_last_access h) = Some t' ->
       t' <= t).
Proof.
  revert h. induction fuel as [|fuel IH]; intros h Hone Htr Hmax Hsize; [lia|].
  simpl. destruct (_ >? _) eqn:Hgt.
  2: { exists h. split; [done|]. split; [lia|]. split; [done|]. split; [done|].
       intros k k' t t' _ Hnone _ Ht'.
       assert (is_Some (_settings_buffer h !! k')) as [? ?] by (apply Htr; by eexists).
       congruence. }
  pose proof (oldest_spec (_last_access h)) as Hold.
  destruct (oldest (_last_access h)) as [[id tid]|].
  2: { exfalso.
       assert (size (_settings_buffer h) <> 0%nat) as Hne by lia.
       apply map_size_non_empty_iff, map_choose in Hne as (k & l & Hk).
       assert (is_Some (la_get k (_last_access h))) as [t Ht] by (apply Htr; by eexists).
       rewrite Hold in Ht. done. }
  destruct Hold as [Hin Hmin].
  pose proof (elem_la_get _ _ _ Hone Hin) as Hgetid.
  assert (is_Some (_settings_buffer h !! id)) as [l Hl] by (apply Htr; by eexists).
  unfold bind, del_settings, del_last_access. rewrite Hl. simpl. rewrite Hgetid.
  match goal with |- context [evict_oldest fuel ?h1] =>
    destruct (IH h1) as (h' & -> & Hsz & Htr' & Hla & Hlru) end.
  { by apply la_remove_nodup. }
  { intros k. simpl. destruct (decide (k = id)) as [->|Hne].
    - rewrite la_get_remove_eq by done. rewrite lookup_delete_eq.
      split; intros [? ?]; done.
    - rewrite la_get_remove_ne by done. rewrite lookup_delete_ne by done.
      apply Htr. }
  { done. }
  { simpl. rewrite map_size_delete, Hl.
    assert (size (_settings_buffer h) <> 0%nat) as Hne.
    { apply map_size_non_empty_iff. intros Hem. by rewrite Hem in Hl. }
    simpl. lia. }
  simpl in *.
  assert (forall k, is_Some (_settings_buffer h' !! k) -> k <> id) as Hkept.
  { intros k Hk ->. apply Htr' in Hk as [t Ht]. rewrite Hla in Ht by (apply Htr'; by eexists).
    by rewrite la_get_remove_eq in Ht. }
  exists h'. split; [done|]. split; [done|]. split; [done|]. split.
  - intros k Hk. rewrite Hla by done. apply la_get_remove_ne. by apply Hkept.
  - intros k k' t t' Hk Hk' Ht Ht'.
    destruct (decide (k' = id)) as [->|Hne].
    + assert (t' = tid) as -> by congruence.
      eapply Hmin. by apply la_get_elem.
    + eapply (Hlru k k'); try done.
      * rewrite la_get_remove_ne; [done | by apply Hkept].
      * by rewrite la_get_remove_ne.
Qed.

Lemma stamps_are_settings_keys_tracked h :
  stamps_are_settings_keys h -> settings_tracked h.
Proof.
  unfold stamps_are_settings_keys. intros Hdom k.
  rewrite <- elem_of_dom, Hdom, elem_of_list_to_set.
  rewrite <- not_eq_None_Some, la_get_None. split.
  - intros Hn. destruct (decide (k ∈ map fst (_last_access h))); done.
  - intros Hin Hn. done.
Qed.

(** X9: when the ids with a timestamp are exactly the keys of the settings
    cache (one timestamp each) and the maximum size is not negative, a
    sweep leaves at most that many settings entries, and it keeps the
    most recently stamped ones: no entry it removed has a later
    timestamp than an entry it kept. *)
Theorem sweep_trims_to_the_most_recent now h h' :
  one_timestamp_per_id h ->
  stamps_are_settings_keys h ->
  0 <= _MAX_CACHE_SIZE h ->
  cleanup_cache now h = Some h' ->
  Z.of_nat (size (_settings_buffer h')) <= _MAX_CACHE_SIZE h /\
  forall k k' t t',
    is_Some (_settings_buffer h' !! k) -> _settings_buffer h' !! k' = None ->
    la_get k (_last_access h) = Some t -> la_get k' (_last_access h) = Some t' ->
    t' <= t.
Proof.
  intros Hone Htr%stamps_are_settings_keys_tracked Hmax Hsweep.
  assert (forall k, k ∈ expired_settings now h <->
            expired now k h /\ is_Some (_settings_buffer h !! k)) as Hmem.
  { intros k. rewrite elem_expired_settings. unfold expired. split.
    - intros (t & Hin & Ht & Hb). split; [|done]. exists t.
      split; [by apply elem_la_get | done].
    - intros [(t & Hget & Ht) Hb]. exists t. by split; [apply la_get_elem|]. }
  destruct (remove_expired_ok (expired_settings now h) h)
    as (h1 & E1 & Hb1 & Hla1).
  { by apply expired_settings_nodup. }
  { intros k [(t & Hget & _) Hb]%Hmem. split; [done | by exists t]. }
  pose proof (remove_expired_swept _ _ _ _ E1)
    as (Httl & Hmax1 & _ & _ & _ & _ & Hsub1 & _).
  destruct (remove_expired_timestamps _ _ _ Hone E1) as [Hone1 Hnone1].
  assert (settings_tracked h1) as Htr1.
  { intros k. rewrite Hb1. destruct (decide (k ∈ expired_settings now h)).
    - rewrite Hnone1 by done. done.
    - rewrite Hla1 by done. apply Htr. }
  unfold cleanup_cache in Hsweep. rewrite E1 in Hsweep.
  destruct (evict_oldest_trims (S (size (_settings_buffer h1))) h1)
    as (h2 & E2 & Hsz & _ & _ & Hlru); [done | done | lia | lia |].
  destruct (evict_oldest_finishes (S (size (_settings_buffer h1))) h1)
    as (r & h3 & E3 & Hsw); [lia|].
  rewrite E2 in E3. inversion E3; subst r h3; clear E3.
  rewrite E2 in Hsweep. inversion Hsweep; subst h2; clear Hsweep.
  destruct Hsw as (_ & _ & _ & _ & _ & _ & Hsub2 & _).
  split; [lia|].
  intros k k' t t' [l Hk] Hk' Ht Ht'.
  assert (_settings_buffer h1 !! k = Some l) as Hk1
    by (eapply lookup_weaken; [exact Hk | exact Hsub2]).
  assert (k ∉ expired_settings now h) as Hkn.
  { intros Hin. rewrite Hb1 in Hk1. by rewrite decide_True in Hk1. }
  destruct (decide (k' ∈ expired_settings now h)) as [Hin|Hnin].
  - apply Hmem in Hin as [(t0 & Ht0 & Hexp) _].
    assert (t0 = t') as -> by congruence.
    assert (~ (now - t > _CACHE_TTL h)) as Hnot.
    { intros Hgt. apply Hkn, Hmem. split; [by exists t|].
      rewrite Hb1 in Hk1. rewrite decide_False in Hk1 by done. by eexists. }
    lia.
  - eapply (Hlru k k'); try done.
    + by rewrite Hla1.
    + by rewrite Hla1.
Qed.

Lemma sweep_trims_to_the_most_recent_witness :
  exists h',
    cleanup_cache 30 two_guilds = Some h' /\
    Z.of_nat (size (_settings_buffer h')) <= 1.
Proof.
  assert (one_timestamp_per_id two_guilds) as Hone.
  { unfold one_timestamp_per_id. apply (bool_decide_unpack _). vm_compute. exact I. }
  assert (stamps_are_settings_keys two_guilds) as Htr.
  { unfold stamps_are_settings_keys. apply (bool_decide_unpack _). vm_compute. exact I. }
  destruct (cleanup_cache 30 two_guilds) as [h'|] eqn:E;
    [|vm_compute in E; discriminate].
  exists h'. split; [reflexivity|].
  apply (sweep_trims_to_the_most_recent 30 two_guilds h' Hone Htr); [|exact E].
  vm_compute. discriminate.
Defined.

(** ** Bulk reads hand out the cached objects themselves *)

Lemma cache_users_files users now h refs h' :
  cache_users users now h = (Ok refs, h') ->
  _settings_buffer h' = _settings_buffer h /\
  (forall k, Some k ∉ map user_key users ->
     _users_buffer h' !! k = _users_buffer h !! k /\
     la_get k (_last_access h') = la_get k (_last_access h)) /\
  (NoDup (map user_key users) ->
   Forall2 (fun r d => exists l k,
              r = Whole l /\ user_key d = Some k /\
              _users_buffer h' !! k = Some l /\
              la_get k (_last_access h') = Some now)
     refs users).
Proof.
  revert h refs h'. induction users as [|user rest IH]; intros h refs h'.
  - intros [= <- <-]. split; [done|]. split; [done|]. constructor.
  - simpl. intros (l & h1 & [-> ->]%alloc_ok & H)%bind_ok.
    apply bind_ok in H as (k & h2 & Ek & H).
    assert (user_key user = Some k /\
            h2 = with_objects (<[next_object h := user]> (objects h))
                   (Pos.succ (next_object h)) h) as [Hkey ->].
    { destruct user as [| | | | |m]; try done. simpl.
      destruct (dict_get "_id" m) as [v|]; [|done]. simpl.
      unfold as_key in Ek. destruct (as_int v); [|done]. by inversion Ek. }
    apply bind_ok in H as ([] & h3 & [= <-] & H).
    apply bind_ok in H as ([] & h4 & [= <-] & H).
    apply bind_ok in H as (refs' & h5 & Hrest & [= <- <-]).
    apply IH in Hrest as (Hs & Hframe & Hall). simpl in *.
    split; [done|]. split.
    + intros k' [Hne Hk']%not_elem_of_cons.
      destruct (Hframe k' Hk') as [-> ->].
      assert (k' <> k) by congruence.
      by rewrite lookup_insert_ne, la_get_set_ne.
    + intros [Hk Hnd]%NoDup_cons. constructor; [|by apply Hall].
      exists (next_object h), k. rewrite Hkey in Hk.
      destruct (Hframe k Hk) as [-> ->].
      by rewrite lookup_insert_eq, la_get_set_eq.
Qed.

(** X10: when the users that a bulk read fetched carry distinct ids, every
    reference it returns is the very object the users cache now holds
    for that user's id, stamped with the time of the read: nothing is
    copied.  So what the caller writes into a returned user is what the
    cache holds for that id from then on. *)
Theorem bulk_read_returns_the_cached_objects criteria limit skip now h refs h' :
  get_users_by_criteria criteria limit skip now h = (Ok refs, h') ->
  NoDup (map user_key (fetched_users criteria limit skip h)) ->
  Forall2 (fun r d => exists l k,
             r = Whole l /\ user_key d = Some k /\
             value_of r h' = Some d /\
             _users_buffer h' !! k = Some l /\
             la_get k (_last_access h') = Some now /\
             forall v, cached_doc Users k (caller_writes l v h') = Some v)
    refs (fetched_users criteria limit skip h).
Proof.
  unfold get_users_by_criteria.
  intros (cur & h1 & Ecur & H)%reraise_ok%bind_ok Hnd.
  assert (h1 = h /\
          run_cursor (_db h) cur = fetched_users criteria limit skip h) as [-> Hcur].
  { unfold users_cursor, cursor_skip in Ecur. destruct (skip <? 0); [done|].
    apply bind_ok in Ecur as (c0 & h0 & [= <- <-] & Ecur).
    unfold fetched_users.
    destruct limit as [n|]; [destruct (n =? 0)|]; by inversion Ecur. }
  apply bind_ok in H as (users & h2 & Eto & H).
  unfold to_list in Eto.
  apply bind_ok in Eto as ([] & h3 & [_ ->]%backend_call_ok & [= <- <-]).
  change (run_cursor _ cur) with (run_cursor (_db h) cur) in H.
  rewrite Hcur in H.
  pose proof (cache_users_returns _ _ _ _ _ H) as (_ & _ & _ & Hval).
  apply cache_users_files in H as (_ & _ & Hall). specialize (Hall Hnd).
  revert Hval Hall. generalize (fetched_users criteria limit skip h).
  intros docs Hval Hall. revert Hval.
  induction Hall as [|r d refs docs (l & k & -> & Hkey & Hbuf & Hla) _ IH];
    intros Hval; inversion Hval; subst; constructor; [|by apply IH].
  exists l, k. repeat split; try done.
  intros v. unfold cached_doc. simpl. rewrite Hbuf. apply lookup_insert_eq.
Qed.

Lemma bulk_read_returns_the_cached_objects_witness :
  exists refs h',
    get_users_by_criteria (VDict []) None 0 100
      (initial (server [] [plain_user 1; plain_user 2])) = (Ok refs, h') /\
    Forall2 (fun r d => exists l k,
               r = Whole l /\ user_key d = Some k /\
               value_of r h' = Some d /\
               _users_buffer h' !! k = Some l /\
               la_get k (_last_access h') = Some 100 /\
               forall v, cached_doc Users k (caller_writes l v h') = Some v)
      refs [plain_user 1; plain_user 2].
Proof.
  destruct (get_users_by_criteria (VDict []) None 0 100
              (initial (server [] [plain_user 1; plain_user 2])))
    as [[refs|e] h'] eqn:E; [|vm_compute in E; discriminate].
  exists refs, h'. split; [reflexivity|].
  apply (bulk_read_returns_the_cached_objects (VDict []) None 0 100 _ refs h' E).
  apply (bool_decide_unpack _). vm_compute. exact I.
Defined.

(** ** The update operators *)

Lemma dict_get_remove_ne k k' (m : list (string * value)) :
  k' <> k -> dict_get k' (dict_remove k m) = dict_get k' m.
Proof.
  intros Hne. unfold dict_get, dict_remove.
  induction m as [|[k0 v0] m IH]; simpl; [done|].
  destruct (String.eqb k k0) eqn:E; simpl; [|by rewrite IH].
  apply String.eqb_eq in E as <-. by apply String.eqb_neq in Hne as ->.
Qed.

Lemma dict_set_same k v (m : list (string * value)) :
  dict_get k m = Some v -> dict_set k v m = m.
Proof.
  unfold dict_get, dict_set. induction m as [|[k0 v0] m IH]; simpl; [done|].
  destruct (String.eqb k k0) eqn:E.
  - by intros [= ->].
  - intros H. by rewrite IH.
Qed.

Lemma split_on_single sep s hd : split_on sep s = (hd, []) -> hd = s.
Proof.
  revert hd. induction s as [|c s IH]; intros hd; simpl.
  - by intros [= <-].
  - destruct (split_on sep s) as [hd' tl']. destruct (Ascii.eqb c sep); [done|].
    intros [= <- ->]. by rewrite (IH hd').
Qed.

Lemma split_cons sep s : exists hd tl, split sep s = hd :: tl.
Proof. unfold split. destruct (split_on sep s) as [hd tl]. by exists hd, tl. Qed.

Lemma split_single sep s f : split sep s = [f] -> f = s.
Proof.
  unfold split. destruct (split_on sep s) as [hd tl] eqn:E.
  intros [= <- ->]. by apply split_on_single in E.
Qed.

Lemma path_get_app cs cs' d :
  path_get (cs ++ cs') d = path_get cs d ≫= path_get cs'.
Proof.
  revert d. induction cs as [|c cs IH]; intros d; simpl; [done|].
  destruct d as [| | | | |m]; try done.
  destruct (dict_get c m); [apply IH | done].
Qed.

Lemma walk_ok cs k d d' :
  walk cs k d = (d', None) ->
  exists nested nested', k nested = (nested', None) /\ path_get cs d' = Some nested'.
Proof.
  revert d d'. induction cs as [|c cs IH]; intros d d'; simpl.
  - intros H. by exists d, d'.
  - destruct d as [| | | | |m]; try done.
    destruct (walk cs k _) as [child' e] eqn:E. intros [= <- ->].
    apply IH in E as (nested & nested' & Hk & Hp).
    exists nested, nested'. split; [done|]. by rewrite dict_get_set_eq.
Qed.


(** What an operator can do to the dict it works on: nothing, set
    [field] (once, or twice when [$push] first creates the list), or
    remove [field]. *)
Lemma apply_field_shape mode field v nested nested' e :
  apply_field mode field v nested = (nested', e) ->
  nested' = nested \/
  exists m, nested = VDict m /\
    ((exists x, nested' = VDict (dict_set field x m)) \/
     (exists x y, nested' = VDict (dict_set field x (dict_set field y m))) \/
     (String.eqb mode "$unset" = true /\ nested' = VDict (dict_remove field m))).
Proof.
  unfold apply_field, op_set, op_unset, op_inc, op_push, op_pull.
  intros H. destruct nested as [| | | | |m];
    repeat (case_match; simplify_eq/=); try (by left).
  all: right; exists m; split; [done|]; eauto 6.
Qed.


(** X11: A [$set] that goes through can be read back: the document then
    holds the value at the end of the dotted path. *)
Theorem set_then_read key v d d' :
  apply_edit "$set" key v d = (d', None) ->
  path_get (split "." key) d' = Some v.
Proof.
  unfold apply_edit. destruct (split_cons "." key) as (hd & tl & ->).
  intros (nested & nested' & Hk & Hp)%walk_ok.
  rewrite (app_removelast_last "" (l := hd :: tl)) at 1 by done.
  rewrite path_get_app, Hp. simpl.
  unfold apply_field in Hk. simpl in Hk. unfold op_set in Hk.
  destruct nested as [| | | | |m]; try done. inversion Hk; subst.
  by rewrite dict_get_set_eq.
Qed.

Lemma set_then_read_witness :
  path_get ["playlist"; "201"; "name"]
    (fst (apply_edit "$set" "playlist.201.name" (VStr "Road Trip") (plain_user 42)))
  = Some (VStr "Road Trip").
Proof.
  destruct (apply_edit "$set" "playlist.201.name" (VStr "Road Trip") (plain_user 42))
    as [d' e] eqn:E.
  assert (e = None) as -> by (vm_compute in E; by inversion E).
  exact (set_then_read "playlist.201.name" (VStr "Road Trip") (plain_user 42) d' E).
Defined.



(** ** The three fields of a user document *)

Lemma dict_mem_set name k x (m : list (string * value)) :
  dict_mem name m = true -> dict_mem name (dict_set k x m) = true.
Proof.
  unfold dict_mem, PyDict.mem. fold dict_get. fold dict_set.
  destruct (decide (name = k)) as [->|Hne].
  - by rewrite dict_get_set_eq.
  - by rewrite dict_get_set_ne.
Qed.

Lemma dict_mem_remove_ne name k (m : list (string * value)) :
  name <> k -> dict_mem name (dict_remove k m) = dict_mem name m.
Proof.
  intros Hne. unfold dict_mem, PyDict.mem. fold dict_get. fold dict_remove.
  by rewrite dict_get_remove_ne.
Qed.

Lemma apply_field_keeps_field mode field v nested nested' e name :
  apply_field mode field v nested = (nested', e) ->
  has_field name nested = true ->
  String.eqb mode "$unset" = false \/ field <> name ->
  has_field name nested' = true.
Proof.
  intros [->|(m & -> & [(x & ->)|[(x & y & ->)|(Hm & ->)]])]%apply_field_shape Hin Hor;
    simpl in *; try done.
  - by apply dict_mem_set.
  - by apply dict_mem_set, dict_mem_set.
  - destruct Hor as [Hor|Hne]; [congruence|].
    by rewrite dict_mem_remove_ne.
Qed.

Lemma apply_edit_keeps_field mode key v d d' e name :
  apply_edit mode key v d = (d', e) ->
  has_field name d = true ->
  String.eqb mode "$unset" = false \/ key <> name ->
  has_field name d' = true.
Proof.
  unfold apply_edit. destruct (split_cons "." key) as (c & tl & Hsplit).
  rewrite Hsplit. destruct tl as [|c' tl]; simpl removelast; simpl List.last.
  - apply split_single in Hsplit as ->. simpl walk. apply apply_field_keeps_field.
  - simpl. destruct d as [| | | | |m]; try by intros [= <- _].
    destruct (walk _ _ _) as [child' e0]. intros [= <- _] Hin _. simpl in *.
    by apply dict_mem_set.
Qed.

Lemma apply_action_keeps_field mode act d name :
  has_field name d = true ->
  String.eqb mode "$unset" = false \/
    forallb (fun edit => negb (String.eqb (fst edit) name)) act = true ->
  has_field name (fst (apply_action mode act d)) = true.
Proof.
  revert d. induction act as [|[key v] act IH]; intros d Hin Hor; simpl; [done|].
  destruct (apply_edit mode key v d) as [d' e] eqn:E.
  assert (has_field name d' = true) as Hin'.
  { eapply apply_edit_keeps_field; [exact E | done |].
    destruct Hor as [?|Hall]; [by left | right].
    simpl in Hall. apply andb_prop in Hall as [Hk _].
    apply negb_true_iff, String.eqb_neq in Hk. done. }
  destruct e; [done|]. apply IH; [done|].
  destruct Hor as [?|Hall]; [by left | right].
  simpl in Hall. by apply andb_prop in Hall as [_ ?].
Qed.

Lemma apply_data_keeps_field data d name :
  In name user_fields ->
  keeps_user_fields data = true ->
  has_field name d = true ->
  has_field name (fst (apply_data data d)) = true.
Proof.
  intros Hname. revert d. induction data as [|[mode act] data IH];
    intros d Hkeep Hin; simpl; [done|].
  simpl in Hkeep. apply andb_prop in Hkeep as [Hop Hkeep].
  destruct (apply_action mode act d) as [d' e] eqn:E.
  assert (has_field name d' = true) as Hin'.
  { replace d' with (fst (apply_action mode act d)) by (by rewrite E).
    apply apply_action_keeps_field; [done|].
    apply orb_prop in Hop as [Hm|Hall]; [left; by apply negb_true_iff|].
    right. apply forallb_forall. intros edit Hedit.
    rewrite forallb_forall in Hall. specialize (Hall edit Hedit).
    apply negb_true_iff. apply negb_true_iff in Hall.
    destruct (String.eqb (fst edit) name) eqn:Heq; [|done].
    apply String.eqb_eq in Heq.
    assert (existsb (String.eqb (fst edit)) user_fields = true) as Hex.
    { apply existsb_exists. exists name. split; [done|]. by apply String.eqb_eq. }
    simpl in Hex. congruence. }
  destruct e; [done|]. by apply IH.
Qed.

(** X13: an update of a user that returns keeps [playlist], [history] and
    [inbox] in the cached document when they were there, as long as no
    [$unset] of the update names one of the three as its whole key. *)
Theorem update_keeps_the_user_fields k data t1 t2 h b h' :
  update_user k data false t1 t2 h = (Ok b, h') ->
  keeps_user_fields data = true ->
  (has_user_fields <$> cached_doc Users k (after (read_for_update Users k t1) h))
    = Some true ->
  (has_user_fields <$> cached_doc Users k h') = Some true.
Proof.
  unfold update_user, after, read_for_update.
  intros (user & h1 & Eg & H)%reraise_ok%bind_ok Hkeep. rewrite Eg. simpl.
  apply get_user_live in Eg as (l0 & -> & Hk).
  apply bind_ok in H as (result & h2 & Eu & H).
  rewrite andb_false_r in H. unfold ret in H. inversion H; subst; clear H.
  apply _update_db_ok in Eu
    as (_ & before & doc' & n & h3 & Hl & Ha & (_ & ds & _ & ->)%update_one_ok & _ & ->).
  unfold cached_doc. simpl. rewrite Hk, Hl, lookup_insert_eq. simpl.
  intros [= Hfields]. f_equal.
  replace doc' with (fst (apply_data data before)) by (by rewrite Ha).
  unfold has_user_fields in *.
  apply andb_prop in Hfields as [[H1 H2]%andb_prop H3].
  rewrite !apply_data_keeps_field; try done; simpl; tauto.
Qed.

Lemma update_keeps_the_user_fields_witness :
  exists b h',
    update_user 42 (set_name "Road Trip") false 101 102 user42 = (Ok b, h') /\
    (has_user_fields <$> cached_doc Users 42 h') = Some true.
Proof.
  destruct (update_user 42 (set_name "Road Trip") false 101 102 user42)
    as [[b|e] h'] eqn:E; [|vm_compute in E; discriminate].
  exists b, h'. split; [reflexivity|].
  apply (update_keeps_the_user_fields 42 _ 101 102 user42 b h' E);
    reflexivity.
Defined.

(** ** An edit along a path that is there *)

Lemma walk_existing cs k d n0 :
  path_get cs d = Some n0 ->
  exists d',
    walk cs k d = (d', snd (k n0)) /\
    path_get cs d' = Some (fst (k n0)) /\
    (fst (k n0) = n0 -> d' = d).
Proof.
  revert d. induction cs as [|c cs IH]; intros d; simpl.
  - intros [= ->]. exists (fst (k n0)). by destruct (k n0).
  - destruct d as [| | | | |m]; try done.
    destruct (dict_get c m) as [child|] eqn:Hc; [|done]. simpl.
    intros (child' & -> & Hp & Hsame)%IH.
    exists (VDict (dict_set c child' m)). split; [done|]. split.
    + by rewrite dict_get_set_eq.
    + intros ->%Hsame. by rewrite dict_set_same.
Qed.

Lemma apply_edit_at mode key v d w :
  path_get (split "." key) d = Some w ->
  exists m d',
    dict_get (List.last (split "." key) "") m = Some w /\
    let r := apply_field mode (List.last (split "." key) "") v (VDict m) in
    apply_edit mode key v d = (d', snd r) /\
    path_get (split "." key) d' = path_get [List.last (split "." key) ""] (fst r) /\
    (fst r = VDict m -> d' = d).
Proof.
  unfold apply_edit.
  assert (split "." key
          = removelast (split "." key) ++ [List.last (split "." key) ""]) as Hcs.
  { destruct (split_cons "." key) as (hd & tl & ->).
    by apply app_removelast_last. }
  generalize dependent (List.last (split "." key) ""). intros f Hcs.
  generalize dependent (removelast (split "." key)). intros rl Hcs.
  rewrite Hcs, path_get_app.
  destruct (path_get rl d) as [nested|] eqn:Hp; [|done]. simpl.
  destruct nested as [| | | | |m]; try done.
  destruct (dict_get f m) as [w'|] eqn:Hf; [|done]. intros [= ->].
  destruct (walk_existing _ (apply_field mode f v) _ _ Hp) as (d' & Hw & Hp' & Hsame).
  exists m, d'. split; [done|]. simpl. split; [done|]. split; [|done].
  by rewrite path_get_app, Hp'.
Qed.

(** X14: [$inc] of a field that is there and holds something other than a
    number fails, and the document is exactly as it was. *)
Theorem inc_on_non_number_changes_nothing key delta d w :
  path_get (split "." key) d = Some w ->
  is_numeric w = false ->
  apply_edit "$inc" key delta d = (d, Some ValueError).
Proof.
  intros (m & d' & Hf & Happ & _ & Hsame)%(apply_edit_at "$inc" key delta) Hw.
  unfold apply_field in *. simpl in *. unfold op_inc in *.
  rewrite Hf in *. simpl in *. rewrite Hw in *. simpl in *.
  by rewrite Happ, Hsame.
Qed.

Lemma inc_on_non_number_changes_nothing_witness :
  apply_edit "$inc" "playlist.200.name" (VInt 1) (VDict _user_base)
  = (VDict _user_base, Some ValueError).
Proof.
  apply (inc_on_non_number_changes_nothing "playlist.200.name" (VInt 1)
           (VDict _user_base) (VStr "Favourite")); reflexivity.
Defined.

Lemma pull_filter_list vs arr :
  pull_filter (VList vs) arr
  = Some (List.filter (fun x => negb (existsb (py_eqb x) vs)) arr).
Proof.
  induction arr as [|x arr IH]; simpl; [done|].
  rewrite IH. by destruct (existsb (py_eqb x) vs).
Qed.

(** X15: [$pull] on a list that is there takes out every item equal to the
    given value, however often it occurs, and keeps the others in
    order; given [{"$in": [...]}] it takes out every item equal to one
    of the listed values; and given any other dict it takes out
    nothing. *)
Theorem pull_removes_every_match key v d arr :
  path_get (split "." key) d = Some (VList arr) ->
  let gone :=
    match v with
    | VDict spec =>
        match dict_get "$in" spec with
        | Some (VList vs) => Some vs
        | Some _ => None
        | None => Some []
        end
    | _ => Some [v]
    end in
  forall vs, gone = Some vs ->
  exists d',
    apply_edit "$pull" key v d = (d', None) /\
    path_get (split "." key) d'
      = Some (VList (List.filter (fun x => negb (existsb (py_eqb x) vs)) arr)).
Proof.
  intros (m & d' & Hf & Happ & Hp & _)%(apply_edit_at "$pull" key v) gone vs Hgone.
  exists d'. unfold apply_field in *. simpl in *. unfold op_pull in *.
  rewrite Hf in *.
  assert (match v with
          | VDict spec => default (VList []) (dict_get "$in" spec)
          | _ => VList [v]
          end = VList vs) as Hvalues.
  { subst gone. destruct v as [| | | | |spec]; try by inversion Hgone.
    destruct (dict_get "$in" spec) as [[| | | |xs|]|]; by inversion Hgone. }
  rewrite Hvalues, pull_filter_list in *. simpl in *.
  split; [done|]. by rewrite Hp, dict_get_set_eq.
Qed.

Lemma pull_removes_every_match_witness :
  exists d',
    apply_edit "$pull" "tracks" (VStr "a")
      (VDict [("tracks", VList [VStr "a"; VStr "b"; VStr "a"])]) = (d', None) /\
    path_get ["tracks"] d' = Some (VList [VStr "b"]).
Proof.
  apply (pull_removes_every_match "tracks" (VStr "a")
           (VDict [("tracks", VList [VStr "a"; VStr "b"; VStr "a"])])
           [VStr "a"; VStr "b"; VStr "a"] eq_refl [VStr "a"] eq_refl).
Defined.

(** X16: [$push] of [{"$each": items, "$slice": n}] on a list that is there
    appends the items and then keeps [arr[n:]] of the result: for a
    negative [n] the last [|n|] items, for [n >= 0] everything but the
    first [n] items. *)
Theorem push_each_slice_keeps_the_tail key spec items n d arr :
  path_get (split "." key) d = Some (VList arr) ->
  dict_get "$each" spec = Some (VList items) ->
  dict_get "$slice" spec = Some (VInt n) ->
  exists d',
    apply_edit "$push" key (VDict spec) d = (d', None) /\
    path_get (split "." key) d'
      = Some (VList (drop (if 0 <=? n then Z.to_nat n
                           else (List.length (arr ++ items) - Z.to_nat (- n))%nat)
                       (arr ++ items))).
Proof.
  intros (m & d' & Hf & Happ & Hp & _)%(apply_edit_at "$push" key (VDict spec))
    Heach Hslice.
  exists d'. unfold apply_field in *. simpl in *. unfold op_push in *.
  assert (dict_mem (List.last (split "." key) "") m = true) as Hmem
    by (unfold dict_mem, PyDict.mem; fold dict_get; by rewrite Hf).
  rewrite Hmem, Hf, Heach, Hslice in *. simpl in *.
  split; [done|]. rewrite Hp, dict_get_set_eq. do 2 f_equal.
  unfold slice_from. destruct (0 <=? n) eqn:E; [done|].
  f_equal. lia.
Qed.

Lemma push_each_slice_keeps_the_tail_witness :
  exists d',
    apply_edit "$push" "history"
      (VDict [("$each", VList five); ("$slice", VInt (-3))])
      (VDict [("history", VList [])]) = (d', None) /\
    path_get ["history"] d' = Some (VList [VInt 3; VInt 4; VInt 5]).
Proof.
  apply (push_each_slice_keeps_the_tail "history"
           [("$each", VList five); ("$slice", VInt (-3))] five (-3)
           (VDict [("history", VList [])]) []); reflexivity.
Defined.

(** ** An edit that fails *)

Lemma read_for_update_whole c k t h r h1 :
  read_for_update c k t h = (Ok r, h1) -> exists l, r = Whole l.
Proof.
  destruct c; simpl.
  - rewrite get_settings_eq.
    intros (hit & h0 & _ & H)%reraise_ok%bind_ok.
    apply bind_ok in H as (u & h2 & _ & H).
    apply bind_ok in H as (l0 & h3 & _ & (x & _ & -> & _)%deepcopy_ok).
    by eexists.
  - intros (l0 & -> & _)%get_user_live. by eexists.
Qed.

Lemma _update_db_edit_fails db l k data now h before e :
  objects h !! l = Some before ->
  snd (apply_data data before) = Some e ->
  exists h',
    _update_db db (Whole l) [("_id", VInt k)] data now h
      = (Raise GenericException, h') /\
    _db h' = _db h /\ _last_access h' = _last_access h /\
    _settings_buffer h' !! k = None /\ _users_buffer h' !! k = None.
Proof.
  intros Hl He. unfold _update_db, deref, load, assign, store. run.
  destruct (all_valid data); simpl.
  - rewrite Hl. destruct (apply_data data before) as [doc' e']. simpl in *.
    subst e'. simpl. eexists. split; [reflexivity|]. simpl.
    by rewrite !lookup_delete_eq.
  - eexists. split; [reflexivity|]. simpl. by rewrite !lookup_delete_eq.
Qed.

(** X17: when one of the edits of an update fails on the document that the
    read at the start of the update returned, the update raises
    [ConnectionError], with or without [upsert]; nothing is sent to the
    backend after that read, the timestamps are as the read left them,
    and the id is in neither cache. *)
Theorem failed_edit_sends_nothing c k data upsert t1 t2 h r h1 before e :
  read_for_update c k t1 h = (Ok r, h1) ->
  value_of r h1 = Some before ->
  snd (apply_data data before) = Some e ->
  exists h',
    update c k data upsert t1 t2 h = (Raise ConnectionError, h') /\
    _db h' = _db h1 /\ _last_access h' = _last_access h1 /\
    _settings_buffer h' !! k = None /\ _users_buffer h' !! k = None.
Proof.
  intros Eg Hv He.
  destruct (read_for_update_whole _ _ _ _ _ _ Eg) as [l ->].
  rewrite value_of_whole in Hv.
  destruct (_update_db_edit_fails
              (match c with Settings => _settings_db | Users => _users_db end)
              l k data t2 h1 before e Hv He) as (h' & Eu & Hrest).
  exists h'. split; [|done].
  destruct c; simpl in *;
    unfold update_settings, update_user, reraise_as, catch;
    unfold bind at 1; rewrite Eg;
    unfold bind at 1; by rewrite Eu.
Qed.

Lemma failed_edit_sends_nothing_witness :
  exists h',
    update Users 42 inc_name false 101 102 named42 = (Raise ConnectionError, h') /\
    _db h' = _db named42 /\ _users_buffer h' !! 42 = None.
Proof.
  destruct (read_for_update Users 42 101 named42) as [[r|e0] h1] eqn:Eg;
    [|vm_compute in Eg; discriminate].
  assert (h1 = named42) as Hh by (vm_compute in Eg; by inversion Eg).
  destruct (value_of r h1) as [before|] eqn:Hv;
    [|vm_compute in Eg; inversion Eg; subst; vm_compute in Hv; discriminate].
  assert (snd (apply_data inc_name before) = Some ValueError) as He.
  { vm_compute in Eg. inversion Eg; subst r h1. vm_compute in Hv.
    inversion Hv; subst before. reflexivity. }
  destruct (failed_edit_sends_nothing Users 42 inc_name false 101 102 named42
              r h1 before ValueError Eg Hv He) as (h' & E & Hdb & _ & _ & Hu).
  exists h'. split; [exact E|]. split; [by rewrite Hdb, Hh | exact Hu].
Defined.

(** ** A first read of settings *)

Lemma find_existsb_false {A} (f : A -> bool) xs :
  existsb f xs = false -> List.find f xs = None.
Proof.
  induction xs as [|x xs IH]; simpl; [done|].
  destruct (f x); simpl; [done | exact IH].
Qed.

Lemma find_app_new {A} (f : A -> bool) xs x :
  existsb f xs = false -> f x = true -> List.find f (xs ++ [x]) = Some x.
Proof.
  induction xs as [|y xs IH]; simpl; intros Hn Hx; [by rewrite Hx|].
  destruct (f y); simpl in *; [done | by apply IH].
Qed.

(** X18: a read of settings that has to go to the backend (the guild is not
    cached, or a refresh is forced), for a guild of which the backend
    has no document, creates [{"_id": guild_id}]: provided the two
    backend calls go through, the read returns a copy of that document,
    the cache holds it under the guild's id with the time of the read,
    the backend holds it as its last settings document, and a read of
    the backend by that primary key finds exactly it. *)
Theorem first_read_creates_the_settings k fr now h :
  fr || negb (in_buffer Settings k h) = true ->
  existsb (has_id (VInt k)) (settings_docs (_db h)) = false ->
  faulty (List.length (calls (_db h))) (_db h) = false ->
  faulty (S (List.length (calls (_db h)))) (_db h) = false ->
  exists l h',
    get_settings k fr now h = (Ok (Whole l), h') /\
    value_of (Whole l) h' = Some (default_settings k) /\
    cached_doc Settings k h' = Some (default_settings k) /\
    la_get k (_last_access h') = Some now /\
    settings_docs (_db h') = settings_docs (_db h) ++ [default_settings k] /\
    List.find (has_id (VInt k)) (settings_docs (_db h')) = Some (default_settings k) /\
    calls (_db h')
      = calls (_db h) ++ [FindOne Settings [("_id", VInt k)];
                          InsertOne Settings (default_settings k)].
Proof.
  intros Hmiss Hnew Hf1 Hf2. unfold faulty in *.
  unfold get_settings. unfold reraise_as at 1, catch at 1.
  unfold bind at 1. unfold gets at 1. rewrite Hmiss.
  unfold bind at 1. unfold bind at 1. unfold find_one.
  unfold bind at 1. unfold backend_call at 1. rewrite Hf1.
  unfold gets at 1. cbn [_db with_db docs_of with_call settings_docs _settings_db].
  change (selects _ [("_id", VInt k)]) with (has_id (VInt k)).
  rewrite (find_existsb_false _ _ Hnew).
  unfold bind at 1. unfold bind at 1. unfold reraise_as at 1, catch at 1.
  unfold insert_one. unfold bind at 1. unfold backend_call at 1.
  cbn [_db with_db docs_of with_call settings_docs _settings_db calls faults].
  rewrite length_app, Nat.add_1_r, Hf2.
  cbn [doc_id dict_get PyDict.get String.eqb Ascii.eqb Bool.eqb].
  unfold bind at 1. unfold gets at 1.
  cbn [_db with_db docs_of with_call settings_docs _settings_db].
  rewrite Hnew. unfold modify at 1, ret at 1.
  unfold bind at 1. unfold alloc at 1. unfold bind at 1. unfold modify at 1.
  unfold modify at 1. unfold bind at 1. unfold cached at 1.
  cbn [buffer_of _settings_buffer with_last_access with_settings_buffer
       with_objects with_db].
  rewrite lookup_insert_eq.
  unfold deepcopy, deref. unfold bind at 1. unfold load at 1.
  cbn [objects with_last_access with_settings_buffer with_objects with_db].
  rewrite lookup_insert_eq.
  unfold bind at 1. unfold alloc at 1, ret at 1.
  eexists _, _. split; [reflexivity|].
  rewrite value_of_whole. unfold cached_doc. simpl.
  rewrite !lookup_insert_eq.
  assert (next_object h <> Pos.succ (next_object h)) by lia.
  rewrite lookup_insert_ne by lia. rewrite lookup_insert_eq.
  rewrite la_get_set_eq.
  repeat split; try done.
  - apply find_app_new; [done|]. unfold has_id. simpl. apply Z.eqb_refl.
  - by rewrite <- app_assoc.
Qed.

Lemma first_read_creates_the_settings_witness :
  exists l h',
    get_settings 9 false 50 (initial (server [] [])) = (Ok (Whole l), h') /\
    cached_doc Settings 9 h' = Some (default_settings 9) /\
    List.find (has_id (VInt 9)) (settings_docs (_db h')) = Some (default_settings 9).
Proof.
  destruct (first_read_creates_the_settings 9 false 50 (initial (server [] [])))
    as (l & h' & E & _ & Hc & _ & _ & Hfind & _); try reflexivity.
  by exists l, h'.
Defined.

(** ** What a computation leaves related to where it started *)

Section Respects.
Context (R : relation handler) `{!PreOrder R}.

Lemma respects_ret {A} (a : A) : respects R (ret a).
Proof. intros h. reflexivity. Qed.

Lemma respects_raise {A} e : respects R (raise (A := A) e).
Proof. intros h. reflexivity. Qed.



Lemma respects_bind {A B} (m : M A) (k : A -> M B) :
  respects R m -> (forall a, respects R (k a)) -> respects R (bind m k).
Proof.
  intros Hm Hk h. unfold bind. specialize (Hm h).
  destruct (m h) as [[a|e] h1]; simpl in *; [|done].
  by etrans; [|apply Hk].
Qed.

Lemma respects_catch {A} (m : M A) (k : exn -> M A) :
  respects R m -> (forall e, respects R (k e)) -> respects R (catch m k).
Proof.
  intros Hm Hk h. unfold catch. specialize (Hm h).
  destruct (m h) as [[a|e] h1]; simpl in *; [done|].
  by etrans; [|apply Hk].
Qed.

Lemma respects_reraise {A} e (m : M A) :
  respects R m -> respects R (reraise_as e m).
Proof. intros Hm. apply respects_catch; [done|]. intros. apply respects_raise. Qed.

Lemma respects_if {A} (b : bool) (m1 m2 : M A) :
  respects R m1 -> respects R m2 -> respects R (if b then m1 else m2).
Proof. by destruct b. Qed.

End Respects.

#[local] Instance only_objects_preorder : PreOrder only_objects.
Proof.
  split.
  - by intros h.
  - intros h1 h2 h3 (? & ? & ? & ?) (? & ? & ? & ?). repeat split; congruence.
Qed.

#[local] Instance calls_extend_preorder : PreOrder calls_extend.
Proof.
  split.
  - intros h. exists []. by rewrite app_nil_r.
  - intros h1 h2 h3 [m1 H1] [m2 H2]. exists (m1 ++ m2).
    by rewrite H2, H1, app_assoc.
Qed.

Lemma alloc_only_objects x : respects only_objects (alloc x).
Proof. by intros h. Qed.

Lemma load_only_objects l : respects only_objects (load l).
Proof. intros h. unfold load. by destruct (objects h !! l). Qed.

Lemma store_only_objects l x : respects only_objects (store l x).
Proof. by intros h. Qed.

Lemma cached_only_objects c k : respects only_objects (cached c k).
Proof. intros h. unfold cached. by destruct (buffer_of c h !! k). Qed.

Lemma deref_only_objects r : respects only_objects (deref r).
Proof.
  destruct r as [l|l t]; simpl; [apply load_only_objects|].
  apply respects_bind; [apply _ | apply load_only_objects|].
  intros o. destruct o; try apply (respects_raise _).
  destruct (dict_get t kvs); [apply (respects_ret _) | apply (respects_raise _)].
Qed.

Lemma deepcopy_only_objects r : respects only_objects (deepcopy r).
Proof.
  unfold deepcopy. apply respects_bind; [apply _ | apply deref_only_objects|].
  intros x. apply respects_bind; [apply _ | apply alloc_only_objects|].
  intros l. apply (respects_ret _).
Qed.

Lemma select_field_only_objects l d_type : respects only_objects (select_field l d_type).
Proof.
  unfold select_field. destruct d_type as [t|]; [|apply (respects_ret _)].
  destruct (String.eqb t ""); [apply (respects_ret _)|].
  destruct (negb _); [apply (respects_raise _)|].
  apply respects_bind; [apply _ | apply load_only_objects|].
  intros o. destruct o; try apply (respects_raise _).
  apply respects_bind; [apply _ | |intros; apply (respects_ret _)].
  destruct (dict_mem t kvs); [apply (respects_ret _) | apply store_only_objects].
Qed.

(** X19: a read of a key that is cached, without [force_refresh], changes
    nothing but the object store (it allocates the copy it returns, and
    a [get_user] with [d_type] may fill in that field of the cached
    object): no call goes to the backend, and no timestamp is written,
    so the read does not count as an access when the sweep looks for
    old entries. *)
Theorem cached_read_touches_nothing c k d_type now h :
  in_buffer c k h = true ->
  only_objects h (after (get c k d_type false now) h).
Proof.
  intros Hhit. unfold after, get. destruct c.
  - assert (get_settings k false now h
            = reraise_as ConnectionError
                (ret tt ;; l <- cached Settings k ;; deepcopy (Whole l)) h) as ->.
    { rewrite get_settings_eq. unfold reraise_as, catch. unfold bind at 1.
      unfold gets. by rewrite Hhit. }
    apply (respects_reraise only_objects).
    apply respects_bind; [apply _ | apply (respects_ret _) | intros _].
    apply respects_bind; [apply _ | apply cached_only_objects | intros l].
    apply deepcopy_only_objects.
  - assert (get_user k d_type true false now h
            = reraise_as ConnectionError
                (ret tt ;; l <- cached Users k ;;
                 user <- select_field l d_type ;; deepcopy user) h) as ->.
    { rewrite get_user_eq. unfold reraise_as, catch. unfold bind at 1.
      unfold gets. by rewrite Hhit. }
    apply (respects_reraise only_objects).
    apply respects_bind; [apply _ | apply (respects_ret _) | intros _].
    apply respects_bind; [apply _ | apply cached_only_objects | intros l].
    apply respects_bind; [apply _ | apply select_field_only_objects | intros u].
    apply deepcopy_only_objects.
Qed.

Lemma cached_read_touches_nothing_witness :
  _last_access (after (get Users 5 (Some "inbox") false 1000) both5)
  = _last_access both5.
Proof.
  exact (proj1 (proj2 (cached_read_touches_nothing Users 5 (Some "inbox") 1000
                         both5 eq_refl))).
Defined.

(** ** Reads of one field of a user *)

(** X20: A [get_user] for a [d_type] that is not a key of the user template
    never returns: whatever the state, the caller gets a
    [ConnectionError] (the [ValueError] raised inside is wrapped like
    any other failure). *)
Theorem unknown_d_type_is_a_connection_error k t nc fr now h :
  String.eqb t "" = false ->
  dict_mem t _user_base = false ->
  fst (get_user k (Some t) nc fr now h) = Raise ConnectionError.
Proof.
  intros Ht Hm. rewrite get_user_eq. unfold reraise_as, catch, raise.
  match goal with |- context [match ?m h with _ => _ end] =>
    destruct (m h) as [[r|e] h'] eqn:E end; [|done].
  exfalso.
  apply bind_ok in E as (hit & h1 & _ & E).
  apply bind_ok in E as (u & h2 & _ & E).
  apply bind_ok in E as (l & h3 & _ & E).
  apply bind_ok in E as (user & h4 & E & _).
  unfold select_field in E. by rewrite Ht, Hm in E.
Qed.

Lemma unknown_d_type_is_a_connection_error_witness :
  fst (get_user 42 (Some "settings") true false 200 user42) = Raise ConnectionError.
Proof.
  apply (unknown_d_type_is_a_connection_error 42 "settings" true false 200 user42);
    reflexivity.
Defined.




(** ** When the backend fails an update *)














(** ** Callers: a new playlist id, and who may read a playlist *)

Lemma first_free_spec ids existed :
  match first_free ids existed with
  | Some s =>
      exists before i after,
        ids = before ++ i :: after /\ s = py_str i /\
        ~ In s existed /\
        forall j, In j before -> In (py_str j) existed
  | None => forall j, In j ids -> In (py_str j) existed
  end.
Proof.
  assert (forall s, existsb (String.eqb s) existed = true <-> In s existed) as Hin.
  { intros s. rewrite existsb_exists. split.
    - intros (x & Hx & ->%String.eqb_eq). done.
    - intros Hs. exists s. split; [done | apply String.eqb_refl]. }
  induction ids as [|i rest IH]; simpl; [done|].
  destruct (existsb (String.eqb (py_str i)) existed) eqn:E; simpl.
  - apply Hin in E. destruct (first_free rest existed) as [s|].
    + destruct IH as (before & i0 & after & -> & -> & Hfree & Hbefore).
      exists (i :: before), i0, after. repeat split; try done.
      intros j [<-|Hj]; [done | by apply Hbefore].
    + intros j [<-|Hj]; [done | by apply IH].
  - exists [], i, rest. repeat split; try done.
    intros Hs%Hin. congruence.
Qed.

(** X23: [assign_playlist_id] answers with the first of the ids 200 to 209
    that is not taken: every smaller id from 200 on is taken, and the
    answer is not.  When all ten are taken it answers [None], although
    it is declared to return a string. *)
Theorem assign_playlist_id_is_first_free existed :
  match assign_playlist_id existed with
  | Some s =>
      exists i, 200 <= i < 210 /\ s = py_str i /\ ~ In s existed /\
        forall j, 200 <= j < i -> In (py_str j) existed
  | None => forall j, 200 <= j < 210 -> In (py_str j) existed
  end.
Proof.
  unfold assign_playlist_id.
  assert (forall j, 200 <= j < 210 -> In j (py_range 200 210)) as Hrange.
  { intros j Hj. change (py_range 200 210)
      with [200; 201; 202; 203; 204; 205; 206; 207; 208; 209].
    assert (j = 200 \/ j = 201 \/ j = 202 \/ j = 203 \/ j = 204 \/ j = 205 \/
            j = 206 \/ j = 207 \/ j = 208 \/ j = 209) as Hcases by lia.
    simpl. intuition. }
  pose proof (first_free_spec (py_range 200 210) existed) as Hspec.
  destruct (first_free (py_range 200 210) existed) as [s|].
  - destruct Hspec as (before & i & after & Hsplit & -> & Hfree & Hbefore).
    exists i.
    assert (exists n, before = map (fun m => 200 + Z.of_nat m) (seq 0 n) /\
                      i = 200 + Z.of_nat n /\ (n < 10)%nat) as (n & Hb & -> & Hn).
    { change (py_range 200 210)
        with (map (fun m => 200 + Z.of_nat m) (seq 0 10)) in Hsplit.
      exists (List.length before).
      assert (List.length before < 10)%nat as Hlen.
      { apply (f_equal (@List.length Z)) in Hsplit.
        rewrite length_map, length_seq, length_app in Hsplit. simpl in Hsplit. lia. }
      assert (before = take (List.length before)
                         (map (fun m => 200 + Z.of_nat m) (seq 0 10))) as Hb.
      { rewrite Hsplit. by rewrite take_app_length. }
      assert (map (fun m => 200 + Z.of_nat m) (seq 0 10)
                !! List.length before = Some i) as Hi.
      { rewrite Hsplit. by apply list_lookup_middle. }
      split; [|split; [|done]].
      - rewrite Hb at 1. rewrite <- fmap_take. f_equal.
        rewrite take_seq. f_equal. lia.
      - rewrite list_lookup_fmap in Hi.
        rewrite lookup_seq_lt in Hi by done. simpl in Hi. by inversion Hi. }
    split; [lia|]. split; [done|]. split; [done|].
    intros j Hj. apply Hbefore. rewrite Hb. apply in_map_iff.
    exists (Z.to_nat (j - 200)). split; [lia|]. apply in_seq. lia.
  - intros j Hj. by apply Hspec, Hrange.
Qed.

Lemma deref_ok r h x h' :
  deref r h = (Ok x, h') -> h' = h /\ value_of r h = Some x.
Proof.
  intros H. pose proof (deref_only_objects r h) as Hr.
  unfold value_of. rewrite H in *. split; [|done].
  destruct r as [l|l t]; simpl in H.
  - by apply load_ok in H as [-> _].
  - apply bind_ok in H as (o & h1 & [-> _]%load_ok & H).
    destruct o; try done. destruct (dict_get t kvs); by inversion H.
Qed.

Lemma py_get_ok v key x h h' :
  py_get v key h = (Ok x, h') ->
  h' = h /\ exists m, v = VDict m /\ x = default VNone (dict_get key m).
Proof.
  unfold py_get. destruct v as [| | | | |m]; try done.
  intros [= <- <-]. split; [done|]. by exists m.
Qed.

Lemma py_getitem_ok v key x h h' :
  py_getitem v key h = (Ok x, h') -> h' = h /\ path_get [key] v = Some x.
Proof.
  unfold py_getitem. destruct v as [| | | | |m]; try done. simpl.
  destruct (dict_get key m); [|done]. by intros [= <- <-].
Qed.

(** X24: [check_playlist_perms] hands out a playlist only to a listed
    reader: when it returns anything but an empty value, that value is
    the playlist with the given id in the author's cached user
    document, and [user_id] is among its [perms][read]. *)
Theorem only_listed_readers_get_the_playlist user_id author_id playlist_id now h v h' :
  allocated h ->
  check_playlist_perms user_id author_id playlist_id now h = (Ok v, h') ->
  truthy v = true ->
  (cached_doc Users author_id h' ≫= path_get ["playlist"; playlist_id]) = Some v /\
  exists read,
    path_get ["perms"; "read"] v = Some read /\
    py_contains read (VInt user_id) = Some true.
Proof.
  intros Hall. unfold check_playlist_perms.
  intros (r & h1 & Eg & H)%bind_ok Hv.
  destruct (get_user_fresh _ _ _ _ _ _ _ Hall Eg) as (l & -> & _ & _ & Hval).
  apply bind_ok in H as (user_data & h2 & [-> Hd]%deref_ok & H).
  apply bind_ok in H as (playlist & h3 & [-> (m & -> & ->)]%py_get_ok & H).
  destruct (truthy (default VNone (dict_get playlist_id m))) eqn:Ht; simpl in H.
  2: { inversion H; subst. done. }
  apply bind_ok in H as (perms & h4 & [-> Hperms]%py_getitem_ok & H).
  apply bind_ok in H as (read & h5 & [-> Hread]%py_getitem_ok & H).
  destruct (py_contains read (VInt user_id)) as [[|]|] eqn:Hc; try done.
  2: { inversion H; subst. done. }
  inversion H; subst; clear H.
  destruct (dict_get playlist_id m) as [pl|] eqn:Hpl; [|done].
  change (default VNone (Some pl)) with pl in *.
  split.
  - rewrite Hd in Hval. unfold selected in Hval. simpl in Hval.
    destruct (cached_doc Users author_id h') as [doc|]; [|done]. simpl in *.
    destruct doc as [| | | | |md]; try done.
    rewrite <- Hval. simpl. by rewrite Hpl.
  - exists read. split; [|done].
    change (path_get (["perms"] ++ ["read"]) pl = Some read).
    by rewrite path_get_app, Hperms.
Qed.

Lemma only_listed_readers_get_the_playlist_witness :
  (exists v h',
     check_playlist_perms 2 1 "200" 10 sharing = (Ok v, h') /\
     truthy v = true /\
     (cached_doc Users 1 h' ≫= path_get ["playlist"; "200"]) = Some v /\
     exists read,
       path_get ["perms"; "read"] v = Some read /\
       py_contains read (VInt 2) = Some true) /\
  fst (check_playlist_perms 3 1 "200" 10 sharing) = Ok (VDict []).
Proof.
  split; [|reflexivity].
  assert (allocated sharing) as Hall.
  { unfold allocated. split; apply (bool_decide_unpack _); vm_compute; exact I. }
  destruct (check_playlist_perms 2 1 "200" 10 sharing) as [[v|e] h'] eqn:E;
    [|vm_compute in E; discriminate].
  assert (truthy v = true) as Hv by (vm_compute in E; by inversion E).
  exists v, h'. split; [reflexivity|]. split; [exact Hv|].
  exact (only_listed_readers_get_the_playlist 2 1 "200" 10 sharing v h' Hall E Hv).
Defined.

(** ** One timestamp for a guild and a user of the same id *)

Lemma tail_only_objects c k d_type :
  respects only_objects
    (match c with
     | Settings => l <- cached Settings k ;; deepcopy (Whole l)
     | Users =>
         l <- cached Users k ;; user <- select_field l d_type ;; deepcopy user
     end).
Proof.
  destruct c.
  - apply respects_bind; [apply _ | apply cached_only_objects | intros l].
    apply deepcopy_only_objects.
  - apply respects_bind; [apply _ | apply cached_only_objects | intros l].
    apply respects_bind; [apply _ | apply select_field_only_objects | intros u].
    apply deepcopy_only_objects.
Qed.

(** X25: a read that goes to the backend (the key is not cached, or a
    refresh is forced) and returns writes the time of the read into
    the timestamp of the raw id, whichever collection was read.  That
    one timestamp is the one the sweep looks at, so for the next TTL
    seconds the id does not count as expired: reading user [k] keeps
    the cached settings of guild [k] from expiring, and the other way
    round. *)
Theorem a_refreshing_read_stamps_the_shared_id c k d_type fr now h r h' :
  fr || negb (in_buffer c k h) = true ->
  get c k d_type fr now h = (Ok r, h') ->
  la_get k (_last_access h') = Some now /\
  forall now', now' - now <= _CACHE_TTL h' -> ~ expired now' k h'.
Proof.
  intros Hcond Hget.
  assert (la_get k (_last_access h') = Some now) as Hla.
  { unfold get in Hget.
    destruct c; [rewrite get_settings_eq in Hget | rewrite get_user_eq in Hget];
      apply reraise_ok, bind_ok in Hget as (hit & h1 & [= <- <-] & H);
      rewrite Hcond in H;
      apply bind_ok in H as (u & h2 & (doc & b & -> & _)%load_document_ok & H).
    - match type of H with ?m ?h2 = _ =>
        pose proof (tail_only_objects Settings k None h2) as Hr;
        change (only_objects h2 (snd (m h2))) in Hr end.
      rewrite H in Hr. simpl in Hr. destruct Hr as (_ & -> & _).
      apply la_get_set_eq.
    - match type of H with ?m ?h2 = _ =>
        pose proof (tail_only_objects Users k d_type h2) as Hr;
        change (only_objects h2 (snd (m h2))) in Hr end.
      rewrite H in Hr. simpl in Hr. destruct Hr as (_ & -> & _).
      apply la_get_set_eq. }
  split; [done|].
  intros now' Hnow (t & Ht & Hexp). rewrite Hla in Ht. inversion Ht; subst. lia.
Qed.

Lemma a_refreshing_read_stamps_the_shared_id_witness :
  in_buffer Settings 5 both5 = true /\
  exists r h',
    get Users 5 None true 1000 both5 = (Ok r, h') /\
    la_get 5 (_last_access h') = Some 1000 /\
    ~ expired 1200 5 h'.
Proof.
  split; [reflexivity|].
  destruct (get Users 5 None true 1000 both5) as [[r|e] h'] eqn:E;
    [|vm_compute in E; discriminate].
  destruct (a_refreshing_read_stamps_the_shared_id Users 5 None true 1000 both5
              r h' eq_refl E) as [Hla Hexp].
  exists r, h'. split; [reflexivity|]. split; [exact Hla|].
  apply Hexp. vm_compute in E. inversion E; subst. vm_compute. discriminate.
Defined.

(** ** Updates of a user, one after the other *)




